(** * help-rota: the coordination board server

    A shallow embedding of the Express server of the repository (the REST
    handlers over the in-memory collections [tasks], [visits], [helpers]
    and [config]) and the properties of its task, visit, helper and PIN
    operations; then the connection listener of the server and the three
    listeners of [service-worker.js].

    Conventions of the embedding.
    - A JavaScript value is a [value]; a JavaScript object used as a record
      (a task, a visit, a helper, the config, a request body) is a finite
      map from property names to values.  A property that is missing reads
      as [VUndef], as in JavaScript.
    - The handlers mutate the objects of the arrays in place.  Every slot of
      an array holds an object of its own (created by the handler that
      inserted it), so mutating the object found by [find] is an update of
      the array at the index of the first match.
    - [uuidv4()] and [new Date().toISOString()] are inputs of the
      environment: every request comes with the identifier and the time
      stamp the handler would draw ([env]).
    - [saveJSON] and [io.emit] are recorded as a list of [effect]s, in the
      order the handler performs them; the write of [saveJSON] is taken
      to succeed.
    - [req.body] is the object [express.json()] parsed (the empty object
      when the request has no body).
    - Objects have their own properties only: there are no prototypes.
      The server reads no inherited property of a record it created. *)

From Stdlib Require Import ZArith Ascii.
From Stdlib Require Floats.PrimFloat.
From stdpp Require Import gmap strings list fin_maps.

Local Open Scope string_scope.
Set Warnings "-register-all".

(** ** JavaScript values *)

Inductive value : Type :=
| VUndef
| VNull
| VBool (b : bool)
| VNum (x : PrimFloat.float)
| VStr (s : string)
| VArr (xs : list value)
| VObj (fields : list (string * value)).

(** An object used as a record. *)
Abbreviation obj := (gmap string value).

(** [o.k]: reading a property; a missing property reads as [undefined]. *)
Definition get (o : obj) (k : string) : value := default VUndef (o !! k).

(** JavaScript truthiness (ToBoolean). *)
Definition truthy (v : value) : bool :=
  match v with
  | VUndef | VNull => false
  | VBool b => b
  | VNum x => negb (PrimFloat.eqb x PrimFloat.zero || PrimFloat.is_nan x)
  | VStr s => negb (String.eqb s "")
  | VArr _ | VObj _ => true
  end.

(** [a || b] *)
Definition or_else (a b : value) : value := if truthy a then a else b.

(** [a === b].  Arrays and nested objects compare by reference; the two
    sides of every comparison of the server come from different request
    bodies (or from a request and the store), so two of them are never the
    same reference. *)
Definition strict_eq (a b : value) : bool :=
  match a, b with
  | VUndef, VUndef => true
  | VNull, VNull => true
  | VBool x, VBool y => Bool.eqb x y
  | VNum x, VNum y => PrimFloat.eqb x y
  | VStr x, VStr y => String.eqb x y
  | _, _ => false
  end.


(** A value is absent when it is [null] or [undefined]. *)
Definition absent (v : value) : bool :=
  match v with
  | VUndef | VNull => true
  | _ => false
  end.

Definition present (v : value) : bool := negb (absent v).

(** ** [String.prototype.trim]

    Strings are kept as their UTF-8 bytes.  The white space of ECMAScript
    (WhiteSpace and LineTerminator) is, in UTF-8: one byte 09..0D and 20;
    C2 A0; E1 9A 80; E2 80 80..8A; E2 80 A8, A9 and AF; E2 81 9F;
    E3 80 80; EF BB BF. *)

Definition ws1 (a : ascii) : bool :=
  let n := N_of_ascii a in
  ((9 <=? n) && (n <=? 13) || (n =? 32))%N.

Definition ws2 (a b : ascii) : bool :=
  ((N_of_ascii a =? 194) && (N_of_ascii b =? 160))%N.

Definition ws3 (a b c : ascii) : bool :=
  let x := N_of_ascii a in
  let y := N_of_ascii b in
  let z := N_of_ascii c in
  ((x =? 225) && (y =? 154) && (z =? 128)
   || (x =? 226) && (y =? 128)
      && ((128 <=? z) && (z <=? 138) || (z =? 168) || (z =? 169) || (z =? 175))
   || (x =? 226) && (y =? 129) && (z =? 159)
   || (x =? 227) && (y =? 128) && (z =? 128)
   || (x =? 239) && (y =? 187) && (z =? 191))%N.

Fixpoint trimStart (s : string) : string :=
  match s with
  | EmptyString => s
  | String a r =>
    if ws1 a then trimStart r else
    match r with
    | EmptyString => s
    | String b r2 =>
      if ws2 a b then trimStart r2 else
      match r2 with
      | EmptyString => s
      | String c r3 => if ws3 a b c then trimStart r3 else s
      end
    end
  end.

Fixpoint trimEnd (s : string) : string :=
  match s with
  | EmptyString => EmptyString
  | String a r =>
    if String.eqb (trimStart s) "" then "" else String a (trimEnd r)
  end.

Definition trim (s : string) : string := trimEnd (trimStart s).

(** ** The store, the environment, responses and effects *)

(** The four module-level variables of the server. *)
Record state : Type := State {
  tasks : list obj;
  visits : list obj;
  helpers : list obj;
  config : obj
}.

(** The fallbacks of [loadJSON]: empty collections and the default PIN. *)
Definition initial : state :=
  State [] [] [] {[ "pin" := VStr "0000" ]}.

(** What the handler draws from the outside while it runs. *)
Record env : Type := Env {
  uuid : string;   (* the result of uuidv4() *)
  now : string     (* the result of new Date().toISOString() *)
}.

Inductive payload : Type :=
| PObj (o : obj)
| PList (l : list obj)
| PError (msg : string)        (* { error: msg } *)
| POk (b : bool)               (* { ok: b } *)
| PException (name : string).  (* the error page of an uncaught exception *)

Record response : Type := Response {
  status : nat;
  body : payload
}.

Inductive effect : Type :=
| SaveTasks (doc : list obj)
| SaveVisits (doc : list obj)
| SaveHelpers (doc : list obj)
| SaveConfig (doc : obj)
| Emit (channel : string) (data : list obj).

Definition json (p : payload) : response := Response 200 p.
Definition not_found : response := Response 404 (PError "Not found").

(** [t.id === req.params.id]: the path parameter is a string. *)
Definition has_id (id : string) (o : obj) : bool :=
  strict_eq (get o "id") (VStr id).

(** [arr.find(t => t.id === id)]: the first record with the identifier,
    [None] for [undefined].  The record comes with its index, which stands
    for the reference to the object in the array. *)
Definition find_by_id (id : string) (l : list obj) : option (nat * obj) :=
  list_find (λ o, has_id id o = true) l.

(** [arr.findIndex(t => t.id === id)], [None] for -1. *)
Definition findIndex (id : string) (l : list obj) : option nat :=
  fst <$> find_by_id id l.

(** [arr.filter(t => t.id !== id)] *)
Definition remove_id (id : string) (l : list obj) : list obj :=
  filter (λ o, has_id id o = false) l.

Definition outcome : Type := response * state * list effect.

(** ** Tasks *)

(** [GET /api/tasks] *)
Definition get_tasks (st : state) : outcome :=
  (json (PList (tasks st)), st, []).

(** The object literal of [POST /api/tasks]. *)
Definition new_task (e : env) (b : obj) : obj :=
  <[ "completedAt" := VNull ]>
  (<[ "claimedAt" := VNull ]>
  (<[ "claimedBy" := VNull ]>
  (<[ "createdAt" := VStr (now e) ]>
  (<[ "status" := VStr "waiting" ]>
  (<[ "twin" := or_else (get b "twin") (VStr "") ]>
  (<[ "desiredTime" := or_else (get b "desiredTime") (VStr "") ]>
  (<[ "desiredDate" := or_else (get b "desiredDate") (VStr "") ]>
  (<[ "category" := or_else (get b "category") (VStr "📦 기타") ]>
  (<[ "description" := or_else (get b "description") (VStr "") ]>
  (<[ "title" := get b "title" ]>
  (<[ "id" := VStr (uuid e) ]> ∅))))))))))).

(** [POST /api/tasks]: [tasks.unshift(task)] *)
Definition post_task (e : env) (st : state) (b : obj) : outcome :=
  let task := new_task e b in
  let ts := task :: tasks st in
  (json (PObj task),
   State ts (visits st) (helpers st) (config st),
   [SaveTasks ts; Emit "tasks:update" ts]).

(** The tail shared by the handlers that change the task found at [idx]
    into [t]: save, broadcast, answer with the task. *)
Definition store_task (st : state) (idx : nat) (t : obj) : outcome :=
  let ts := <[ idx := t ]> (tasks st) in
  (json (PObj t),
   State ts (visits st) (helpers st) (config st),
   [SaveTasks ts; Emit "tasks:update" ts]).

(** Looking the task up, answering 404 when there is none. *)
Definition with_task (st : state) (id : string)
    (k : nat → obj → outcome) : outcome :=
  match find_by_id id (tasks st) with
  | None => (not_found, st, [])
  | Some (idx, t) => k idx t
  end.

(** [PUT /api/tasks/:id]: [Object.assign(tasks[idx], req.body)] writes
    every property of the body on the task.  The one key of a body that
    is not written as a property is [__proto__], which runs the prototype
    setter instead; the embedding has no prototypes, and what is proved
    of the properties an update writes is stated for bodies without
    that key. *)
Definition put_task (st : state) (id : string) (b : obj) : outcome :=
  with_task st id (λ idx t, store_task st idx (b ∪ t)).

(** [DELETE /api/tasks/:id] *)
Definition delete_task (st : state) (id : string) : outcome :=
  let ts := remove_id id (tasks st) in
  (json (POk true),
   State ts (visits st) (helpers st) (config st),
   [SaveTasks ts; Emit "tasks:update" ts]).

(** [POST /api/tasks/:id/claim] *)
Definition claim_task (e : env) (st : state) (id : string) (b : obj)
    : outcome :=
  with_task st id (λ idx t,
    store_task st idx
      (<[ "claimedAt" := VStr (now e) ]>
      (<[ "claimedBy" := get b "helperName" ]>
      (<[ "status" := VStr "reserved" ]> t)))).

(** [POST /api/tasks/:id/unclaim] *)
Definition unclaim_task (st : state) (id : string) : outcome :=
  with_task st id (λ idx t,
    store_task st idx
      (<[ "claimedAt" := VNull ]>
      (<[ "claimedBy" := VNull ]>
      (<[ "status" := VStr "waiting" ]> t)))).

(** [POST /api/tasks/:id/complete] *)
Definition complete_task (e : env) (st : state) (id : string) : outcome :=
  with_task st id (λ idx t,
    store_task st idx
      (<[ "completedAt" := VStr (now e) ]>
      (<[ "status" := VStr "done" ]> t))).

(** ** Visits *)

(** [GET /api/visits] *)
Definition get_visits (st : state) : outcome :=
  (json (PList (visits st)), st, []).

(** The object literal of [POST /api/visits]. *)
Definition new_visit (e : env) (b : obj) : obj :=
  <[ "createdAt" := VStr (now e) ]>
  (<[ "bookedAt" := VNull ]>
  (<[ "bookedBy" := VNull ]>
  (<[ "endTime" := get b "endTime" ]>
  (<[ "startTime" := get b "startTime" ]>
  (<[ "date" := get b "date" ]>
  (<[ "id" := VStr (uuid e) ]> ∅)))))).

(** [POST /api/visits]: [visits.push(visit)] *)
Definition post_visit (e : env) (st : state) (b : obj) : outcome :=
  let visit := new_visit e b in
  let vs := (visits st ++ [visit])%list in
  (json (PObj visit),
   State (tasks st) vs (helpers st) (config st),
   [SaveVisits vs; Emit "visits:update" vs]).

Definition store_visit (st : state) (idx : nat) (v : obj) : outcome :=
  let vs := <[ idx := v ]> (visits st) in
  (json (PObj v),
   State (tasks st) vs (helpers st) (config st),
   [SaveVisits vs; Emit "visits:update" vs]).

Definition with_visit (st : state) (id : string)
    (k : nat → obj → outcome) : outcome :=
  match find_by_id id (visits st) with
  | None => (not_found, st, [])
  | Some (idx, v) => k idx v
  end.

(** [POST /api/visits/:id/book] *)
Definition book_visit (e : env) (st : state) (id : string) (b : obj)
    : outcome :=
  with_visit st id (λ idx v,
    if truthy (get v "bookedBy")
    then (Response 409 (PError "Already booked"), st, [])
    else store_visit st idx
           (<[ "bookedAt" := VStr (now e) ]>
           (<[ "bookedBy" := get b "helperName" ]> v))).

(** [POST /api/visits/:id/unbook] *)
Definition unbook_visit (st : state) (id : string) : outcome :=
  with_visit st id (λ idx v,
    store_visit st idx
      (<[ "bookedAt" := VNull ]> (<[ "bookedBy" := VNull ]> v))).

(** [DELETE /api/visits/:id] *)
Definition delete_visit (st : state) (id : string) : outcome :=
  let vs := remove_id id (visits st) in
  (json (POk true),
   State (tasks st) vs (helpers st) (config st),
   [SaveVisits vs; Emit "visits:update" vs]).

(** ** Helpers *)

(** [GET /api/helpers] *)
Definition get_helpers (st : state) : outcome :=
  (json (PList (helpers st)), st, []).

(** [helpers.find(h => h.name === name.trim())] *)
Definition find_helper (n : string) (l : list obj) : option obj :=
  snd <$> list_find (λ h, strict_eq (get h "name") (VStr n) = true) l.

(** [POST /api/helpers].  A name that is truthy and not a string has no
    [trim] method: the call throws a TypeError, which Express answers
    with 500. *)
Definition post_helper (e : env) (st : state) (b : obj) : outcome :=
  match get b "name" with
  | VStr s =>
    if String.eqb s "" || String.eqb (trim s) ""
    then (Response 400 (PError "Name required"), st, [])
    else
      match find_helper (trim s) (helpers st) with
      | Some existing => (json (PObj existing), st, [])
      | None =>
        let helper :=
          <[ "joinedAt" := VStr (now e) ]>
          (<[ "name" := VStr (trim s) ]>
          (<[ "id" := VStr (uuid e) ]> ∅)) in
        let hs := (helpers st ++ [helper])%list in
        (json (PObj helper),
         State (tasks st) (visits st) hs (config st),
         [SaveHelpers hs; Emit "helpers:update" hs])
      end
  | v =>
    if truthy v
    then (Response 500 (PException "TypeError"), st, [])
    else (Response 400 (PError "Name required"), st, [])
  end.

(** ** PIN *)

(** [POST /api/verify-pin] *)
Definition verify_pin (st : state) (b : obj) : outcome :=
  (json (POk (strict_eq (get b "pin") (get (config st) "pin"))), st, []).

(** [POST /api/set-pin] *)
Definition set_pin (st : state) (b : obj) : outcome :=
  if negb (strict_eq (get b "oldPin") (get (config st) "pin"))
  then (Response 403 (PError "Wrong PIN"), st, [])
  else
    let c := <[ "pin" := get b "newPin" ]> (config st) in
    (json (POk true),
     State (tasks st) (visits st) (helpers st) c,
     [SaveConfig c]).

(** ** The server as a transition system *)

Inductive request : Type :=
| GetTasks
| PostTask (b : obj)
| PutTask (id : string) (b : obj)
| DeleteTask (id : string)
| ClaimTask (id : string) (b : obj)
| UnclaimTask (id : string)
| CompleteTask (id : string)
| GetVisits
| PostVisit (b : obj)
| BookVisit (id : string) (b : obj)
| UnbookVisit (id : string)
| DeleteVisit (id : string)
| GetHelpers
| PostHelper (b : obj)
| VerifyPin (b : obj)
| SetPin (b : obj).

Definition handle (e : env) (st : state) (r : request) : outcome :=
  match r with
  | GetTasks => get_tasks st
  | PostTask b => post_task e st b
  | PutTask id b => put_task st id b
  | DeleteTask id => delete_task st id
  | ClaimTask id b => claim_task e st id b
  | UnclaimTask id => unclaim_task st id
  | CompleteTask id => complete_task e st id
  | GetVisits => get_visits st
  | PostVisit b => post_visit e st b
  | BookVisit id b => book_visit e st id b
  | UnbookVisit id => unbook_visit st id
  | DeleteVisit id => delete_visit st id
  | GetHelpers => get_helpers st
  | PostHelper b => post_helper e st b
  | VerifyPin b => verify_pin st b
  | SetPin b => set_pin st b
  end.

Definition next (st : state) (x : env * request) : state :=
  (handle x.1 st x.2).1.2.

(** The requests are handled one after the other, each to completion. *)
Definition run (st : state) (tr : list (env * request)) : state :=
  foldl next st tr.

(** A record with the identifier is in the collection: what [find] sees. *)
Definition stored (id : string) (l : list obj) : Prop :=
  Exists (λ t, has_id id t = true) l.

(** The by-id operations on tasks. *)
Definition task_op (id : string) (b : obj) (r : request) : Prop :=
  r = ClaimTask id b ∨ r = UnclaimTask id ∨ r = CompleteTask id
  ∨ r = PutTask id b.

(** ** The invariants of the data model *)

(** The status invariant of a task: [waiting] has no claim fields,
    [reserved] has both claim fields and no [completedAt], [done] has
    [completedAt]. *)
Definition status_invariant (t : obj) : bool :=
  match get t "status" with
  | VStr s =>
    if String.eqb s "waiting" then
      absent (get t "claimedBy") && absent (get t "claimedAt")
    else if String.eqb s "reserved" then
      present (get t "claimedBy") && present (get t "claimedAt")
      && absent (get t "completedAt")
    else if String.eqb s "done" then
      present (get t "completedAt")
    else true
  | _ => true
  end.

(** The same without the demand that a [reserved] task has no
    [completedAt]. *)
Definition claim_invariant (t : obj) : bool :=
  match get t "status" with
  | VStr s =>
    if String.eqb s "waiting" then
      absent (get t "claimedBy") && absent (get t "claimedAt")
    else if String.eqb s "reserved" then
      present (get t "claimedBy") && present (get t "claimedAt")
    else if String.eqb s "done" then
      present (get t "completedAt")
    else true
  | _ => true
  end.

(** A request that keeps to the state machine: an update does not carry
    the fields of the state machine, a claim names its helper. *)
Definition orderly (r : request) : Prop :=
  match r with
  | PutTask _ b =>
    b !! "status" = None ∧ b !! "claimedBy" = None
    ∧ b !! "claimedAt" = None ∧ b !! "completedAt" = None
  | ClaimTask _ b => present (get b "helperName") = true
  | _ => True
  end.

(** The booking invariant of a visit: [bookedBy] and [bookedAt] are
    present together. *)
Definition booking_invariant (v : obj) : bool :=
  Bool.eqb (present (get v "bookedBy")) (present (get v "bookedAt")).

(** A booking that names its helper. *)
Definition names_helper (r : request) : Prop :=
  match r with
  | BookVisit _ b => present (get b "helperName") = true
  | _ => True
  end.

(** The identifiers of the stored tasks, in order. *)
Definition task_ids (st : state) : list value :=
  (λ t, get t "id") <$> tasks st.

(** An update that does not carry an [id]. *)
Definition keeps_id (r : request) : Prop :=
  match r with
  | PutTask _ b => b !! "id" = None
  | _ => True
  end.

(** The identifiers [uuidv4()] returned to the task creations of a
    trace. *)
Definition drawn (tr : list (env * request)) : list string :=
  omap (λ x, match x.2 with
             | PostTask _ => Some (uuid x.1)
             | _ => None
             end) tr.

(** ** The scenarios of the specification *)

Definition milk : obj := {[ "title" := VStr "buy milk" ]}.
Definition sam : obj := {[ "helperName" := VStr "Sam" ]}.
Definition kim : obj := {[ "helperName" := VStr "Kim" ]}.
Definition lee : obj := {[ "helperName" := VStr "Lee" ]}.

Definition slot : obj :=
  <[ "date" := VStr "2024-06-01" ]>
  (<[ "startTime" := VStr "10:00" ]>
  (<[ "endTime" := VStr "11:00" ]> ∅)).

Definition at_9 : env := Env "7d1f" "2024-06-01T09:00:00.000Z".
Definition at_10 : env := Env "3c2a" "2024-06-01T10:00:00.000Z".
Definition at_11 : env := Env "9b4e" "2024-06-01T11:00:00.000Z".
Definition at_12 : env := Env "5a6c" "2024-06-01T12:00:00.000Z".

(** One task, just created. *)
Definition one_task : state := run initial [(at_9, PostTask milk)].

(** One task, created, claimed by Sam and completed. *)
Definition done_task : state :=
  run one_task [(at_10, ClaimTask "7d1f" sam); (at_11, CompleteTask "7d1f")].

(** One visit, just created, and the same visit booked by Kim. *)
Definition one_visit : state := run initial [(at_9, PostVisit slot)].
Definition kim_visit : state := run one_visit [(at_10, BookVisit "7d1f" kim)].

Definition wrong_change : obj :=
  <[ "oldPin" := VStr "1234" ]> (<[ "newPin" := VStr "4321" ]> ∅).
Definition right_change : obj :=
  <[ "oldPin" := VStr "0000" ]> (<[ "newPin" := VStr "4321" ]> ∅).
Definition sam_name : obj := {[ "name" := VStr "  Sam " ]}.

(** A booking with the empty helper name, and the visit after it. *)
Definition unnamed : obj := {[ "helperName" := VStr "" ]}.
Definition unnamed_visit : state :=
  run one_visit [(at_10, BookVisit "7d1f" unnamed)].

(** Two tasks (the older one claimed by Sam), a visit and a helper. *)
Definition mark_done : obj := {[ "status" := VStr "done" ]}.
Definition retitle : obj := {[ "title" := VStr "buy oat milk" ]}.
Definition busy_board : state :=
  run initial [(at_9, PostTask milk); (at_10, PostTask milk);
               (at_11, PostVisit slot); (at_12, PostHelper sam_name);
               (at_12, ClaimTask "7d1f" sam)].

(** ** The rest of the server *)

(** [io.on('connection', socket => ...)]: the three snapshots the new
    socket is sent, in order. *)
Definition on_connection (st : state) : list (string * list obj) :=
  [("tasks:update", tasks st); ("visits:update", visits st);
   ("helpers:update", helpers st)].

(** Everything a run saves and broadcasts, in order. *)
Fixpoint log (st : state) (tr : list (env * request)) : list effect :=
  match tr with
  | [] => []
  | x :: tr => ((handle x.1 st x.2).2 ++ log (next st x) tr)%list
  end.

(** The by-id requests on tasks and on visits. *)
Definition task_by_id (id : string) (r : request) : Prop :=
  (∃ b, r = PutTask id b) ∨ (∃ b, r = ClaimTask id b)
  ∨ r = UnclaimTask id ∨ r = CompleteTask id.

Definition visit_by_id (id : string) (r : request) : Prop :=
  (∃ b, r = BookVisit id b) ∨ r = UnbookVisit id.

(** A task whose status is one of the three of the state machine. *)
Definition known_status (t : obj) : bool :=
  match get t "status" with
  | VStr s =>
    String.eqb s "waiting" || String.eqb s "reserved" || String.eqb s "done"
  | _ => false
  end.

(** An update that does not carry a [status]. *)
Definition keeps_status (r : request) : Prop :=
  match r with
  | PutTask _ b => b !! "status" = None
  | _ => True
  end.

(** The requests that add or remove tasks, and those for visits. *)
Definition resizes_tasks (r : request) : bool :=
  match r with
  | PostTask _ | DeleteTask _ => true
  | _ => false
  end.

Definition resizes_visits (r : request) : bool :=
  match r with
  | PostVisit _ | DeleteVisit _ => true
  | _ => false
  end.

(** The identifiers of the stored visits, in order. *)
Definition visit_ids (st : state) : list value :=
  (λ v, get v "id") <$> visits st.

(** The names of the stored helpers, in order. *)
Definition helper_names (st : state) : list value :=
  (λ h, get h "name") <$> helpers st.

(** The identifiers [uuidv4()] returned to the visit creations of a
    trace. *)
Definition drawn_visits (tr : list (env * request)) : list string :=
  omap (λ x, match x.2 with
             | PostVisit _ => Some (uuid x.1)
             | _ => None
             end) tr.

Definition unset_change : obj := {[ "oldPin" := VStr "0000" ]}.
Definition try_0000 : obj := {[ "pin" := VStr "0000" ]}.
Definition blank_name : obj := {[ "name" := VStr "   " ]}.
Definition sam_again : obj := {[ "name" := VStr "Sam" ]}.

(** The documents handed to [saveJSON], per file, and the collections
    handed to [io.emit], per channel. *)
Definition saved_tasks (f : effect) : option (list obj) :=
  match f with SaveTasks d => Some d | _ => None end.

Definition saved_visits (f : effect) : option (list obj) :=
  match f with SaveVisits d => Some d | _ => None end.

Definition saved_helpers (f : effect) : option (list obj) :=
  match f with SaveHelpers d => Some d | _ => None end.

Definition saved_config (f : effect) : option obj :=
  match f with SaveConfig d => Some d | _ => None end.

Definition emitted (channel : string) (f : effect) : option (list obj) :=
  match f with
  | Emit c d => if String.eqb c channel then Some d else None
  | _ => None
  end.

(** The last of the effects of one kind. *)
Definition latest {A : Type} (sel : effect → option A) (l : list effect)
    : option A :=
  last (omap sel l).

(** ** The service worker

    [service-worker.js], over a model of the platform it runs on.
    A response is its status and its content.  The cache storage is the
    list of the named caches in the order of their creation, a cache a
    map from the URL of a request to the response stored for it.  The
    promise chains of a handler run to their end before the next event;
    [fetch] either resolves with a response (of any status) or rejects,
    which is the [net] input of the handler; requests are over http(s)
    and responses carry no [Vary] header. *)

Definition CACHE : string := "helprota-v1".
Definition ASSETS : list string := ["/"; "/manifest.json"].

Record asset : Type := Asset {
  code : nat;
  content : string
}.

Abbreviation cache := (gmap string asset).
Abbreviation storage := (list (string * cache)).

Record fetch_request : Type := Fetch {
  method : string;
  url : string
}.

(** [s.startsWith(n)] and [s.includes(n)] *)
Fixpoint startsWith (s n : string) {struct n} : bool :=
  match n, s with
  | EmptyString, _ => true
  | String a n', String b s' => Ascii.eqb a b && startsWith s' n'
  | String _ _, EmptyString => false
  end.

Fixpoint includes (s n : string) : bool :=
  startsWith s n
  || match s with
     | EmptyString => false
     | String _ r => includes r n
     end.

(** [caches.keys()] *)
Definition caches_keys (cs : storage) : list string := cs.*1.

(** [caches.delete(k)] *)
Definition caches_delete (k : string) (cs : storage) : storage :=
  filter (λ c, c.1 ≠ k) cs.

(** [caches.open(name)]: the cache is created, empty, when there is
    none of the name. *)
Definition caches_open (name : string) (cs : storage) : storage :=
  if decide (name ∈ caches_keys cs) then cs else (cs ++ [(name, ∅)])%list.

(** [cache.put(request, response)] on the cache of the name; a response
    of status 206 is refused. *)
Definition cache_put (name : string) (u : string) (a : asset)
    (cs : storage) : storage :=
  if (code a =? 206)%nat then cs
  else (λ c, if decide (c.1 = name) then (c.1, <[ u := a ]> c.2) else c)
         <$> cs.

(** [caches.match(request)]: the first cache, in order, that has a
    response for the URL; [None] for [undefined]. *)
Definition caches_match (u : string) (cs : storage) : option asset :=
  head (omap (λ c, c.2 !! u) cs).

(** What the [fetch] listener does with the event. *)
Inductive reply : Type :=
| NotHandled                     (* returns without [respondWith] *)
| RespondWith (r : option asset). (* the response, [None] for [undefined] *)

(** The [activate] listener:
    [keys.filter(k => k !== CACHE).map(k => caches.delete(k))] *)
Definition on_activate (cs : storage) : storage :=
  foldr caches_delete cs (filter (λ k, k ≠ CACHE) (caches_keys cs)).

(** The [fetch] listener. *)
Definition on_fetch (cs : storage) (q : fetch_request) (net : option asset)
    : reply * storage :=
  if negb (String.eqb (method q) "GET") then (NotHandled, cs)
  else if includes (url q) "/api/" || includes (url q) "/socket.io/"
  then (NotHandled, cs)
  else
    match net with
    | Some res =>
      (RespondWith (Some res), cache_put CACHE (url q) res (caches_open CACHE cs))
    | None => (RespondWith (caches_match (url q) cs), cs)
    end.

(** The ok statuses of [cache.addAll]: 200 to 299 but 206. *)
Definition ok_status (a : asset) : bool :=
  ((200 <=? code a) && (code a <=? 299) && negb (code a =? 206))%nat.

(** [cache.addAll(urls)] on the cache of the name: every URL is fetched,
    and the responses are stored only when all of them arrived with an ok
    status; otherwise the promise rejects ([None]) and nothing is
    stored. *)
Definition cache_addAll (name : string) (urls : list string)
    (net : string → option asset) (cs : storage) : option storage :=
  match mapM net urls with
  | Some rs =>
    if forallb ok_status rs
    then Some (foldl (λ cs' ua, cache_put name ua.1 ua.2 cs') cs
                 (zip urls rs))
    else None
  | None => None
  end.

(** The [install] listener; [base] is the origin the paths of [ASSETS]
    are resolved against, [net] what [fetch] gives for a URL.  The
    boolean tells whether the promise handed to [waitUntil] resolved,
    that is, whether the installation succeeded. *)
Definition on_install (base : string) (net : string → option asset)
    (cs : storage) : storage * bool :=
  let cs1 := caches_open CACHE cs in
  match cache_addAll CACHE (String.append base <$> ASSETS) net cs1 with
  | Some cs2 => (cs2, true)
  | None => (cs1, false)
  end.

Definition rota_net (u : string) : option asset :=
  if String.eqb u "https://rota.example/" then Some (Asset 200 "<!doctype html>")
  else if String.eqb u "https://rota.example/manifest.json"
       then Some (Asset 200 "{}")
       else None.

Definition page : fetch_request := Fetch "GET" "https://rota.example/".
Definition api_call : fetch_request :=
  Fetch "GET" "https://rota.example/api/tasks".
Definition shell : asset := Asset 200 "<!doctype html>".
Definition old_caches : storage :=
  [("helprota-v0", {[ "https://rota.example/" := Asset 200 "old" ]});
   ("helprota-v1", ∅)].

(** * Properties *)

(** ** The scenarios, run *)

Example trim_sam : trim "  Sam " = "Sam".
Proof. reflexivity. Qed.

Example trim_blank : trim (String "009" (String "010" " ")) = "".
Proof. reflexivity. Qed.

Example trim_inner : trim " a  b " = "a  b".
Proof. reflexivity. Qed.

(** Create, claim by Sam, complete: [done], [completedAt] set, still
    claimed by Sam. *)
Example done_task_fields :
  ∃ t, tasks done_task = [t]
       ∧ get t "status" = VStr "done"
       ∧ get t "claimedBy" = VStr "Sam"
       ∧ get t "completedAt" = VStr "2024-06-01T11:00:00.000Z".
Proof. eexists. split; [vm_compute; reflexivity|]. by repeat split. Qed.

(** Kim books; Lee is refused and Kim stays. *)
Example lee_refused :
  handle at_11 kim_visit (BookVisit "7d1f" lee)
  = (Response 409 (PError "Already booked"), kim_visit, [])
  ∧ (λ v, get v "bookedBy") <$> visits kim_visit = [VStr "Kim"].
Proof. split; vm_compute; reflexivity. Qed.

(** ** Creation *)

(** C9.  Creation never fails.  For every request body, [POST /api/tasks]
    and [POST /api/visits] answer 200 with the new record; the record
    carries the identifier drawn from [uuidv4()], [createdAt] is the
    current time, and the fields of the body are stored as they come,
    absent ones included ([title], [date], [startTime], [endTime] read
    [undefined] when the body lacks them).  The task has status
    [waiting] and [null] claim fields and is put in front of the
    collection; the visit has [null] [bookedBy] and [bookedAt] and is put
    at the end. *)
Theorem create_never_fails (e : env) (st : state) (b : obj) :
  (∃ t : obj,
      handle e st (PostTask b)
      = (Response 200 (PObj t),
         State (t :: tasks st) (visits st) (helpers st) (config st),
         [SaveTasks (t :: tasks st); Emit "tasks:update" (t :: tasks st)])
      ∧ t !! "id" = Some (VStr (uuid e))
      ∧ t !! "createdAt" = Some (VStr (now e))
      ∧ t !! "title" = Some (get b "title")
      ∧ t !! "status" = Some (VStr "waiting")
      ∧ t !! "claimedBy" = Some VNull
      ∧ t !! "claimedAt" = Some VNull
      ∧ t !! "completedAt" = Some VNull)
  ∧ (∃ v : obj,
      handle e st (PostVisit b)
      = (Response 200 (PObj v),
         State (tasks st) (visits st ++ [v])%list (helpers st) (config st),
         [SaveVisits (visits st ++ [v])%list;
          Emit "visits:update" (visits st ++ [v])%list])
      ∧ v !! "id" = Some (VStr (uuid e))
      ∧ v !! "createdAt" = Some (VStr (now e))
      ∧ v !! "date" = Some (get b "date")
      ∧ v !! "startTime" = Some (get b "startTime")
      ∧ v !! "endTime" = Some (get b "endTime")
      ∧ v !! "bookedBy" = Some VNull
      ∧ v !! "bookedAt" = Some VNull).
Proof.
  split.
  - exists (new_task e b). repeat split.
  - exists (new_visit e b). repeat split.
Qed.

(** ** Reading properties and finding records *)

Lemma get_insert_eq (o : obj) (k : string) (v : value) :
  get (<[ k := v ]> o) k = v.
Proof. unfold get. by rewrite lookup_insert_eq. Qed.

Lemma get_insert_ne (o : obj) (k k' : string) (v : value) :
  k ≠ k' → get (<[ k := v ]> o) k' = get o k'.
Proof. intros Hne. unfold get. by rewrite lookup_insert_ne. Qed.

(** Reading through a chain of property writes. *)
Ltac read_props :=
  repeat first
    [ rewrite get_insert_eq
    | rewrite get_insert_ne by discriminate ].

Lemma has_id_insert (id k : string) (v : value) (o : obj) :
  k ≠ "id" → has_id id (<[ k := v ]> o) = has_id id o.
Proof. intros Hne. unfold has_id. by rewrite get_insert_ne. Qed.

Lemma findIndex_Some (id : string) (l : list obj) (i : nat) :
  findIndex id l = Some i ↔
  ∃ t, l !! i = Some t ∧ has_id id t = true
       ∧ ∀ j u, l !! j = Some u → j < i → has_id id u = false.
Proof.
  unfold findIndex, find_by_id. split.
  - destruct (list_find _ l) as [[j t]|] eqn:Hf; simpl; [|done].
    intros [= ->]. apply list_find_Some in Hf as (Hl & Ht & Hlt).
    exists t. repeat split; [done..|].
    intros j u Hj Hji. specialize (Hlt j u Hj Hji).
    by destruct (has_id id u).
  - intros (t & Hl & Ht & Hlt).
    assert (list_find (λ o, has_id id o = true) l = Some (i, t)) as ->; [|done].
    apply list_find_Some. repeat split; [done..|].
    intros j u Hj Hji. rewrite (Hlt j u Hj Hji). done.
Qed.

Lemma findIndex_None (id : string) (l : list obj) :
  findIndex id l = None ↔ Forall (λ t, has_id id t = false) l.
Proof.
  unfold findIndex, find_by_id. rewrite fmap_None, list_find_None.
  apply Forall_iff. intros t. by destruct (has_id id t).
Qed.

Lemma findIndex_Exists (id : string) (l : list obj) :
  Exists (λ t, has_id id t = true) l → ∃ i, findIndex id l = Some i.
Proof.
  intros Hex. destruct (findIndex id l) as [i|] eqn:Hf; [by exists i|].
  apply findIndex_None in Hf. apply Exists_exists in Hex as (t & Hin & Ht).
  rewrite Forall_forall in Hf. specialize (Hf t Hin). congruence.
Qed.

(** Replacing the record found by another one with the same identifier
    does not move it. *)
Lemma findIndex_insert (id : string) (l : list obj) (i : nat) (t : obj) :
  findIndex id l = Some i → has_id id t = true →
  findIndex id (<[ i := t ]> l) = Some i.
Proof.
  intros Hf Ht. apply findIndex_Some in Hf as (u & Hl & _ & Hlt).
  apply findIndex_Some. exists t. split; [|split; [done|]].
  - apply list_lookup_insert_eq. by eapply lookup_lt_Some.
  - intros j w Hj Hji. rewrite list_lookup_insert_ne in Hj by lia. eauto.
Qed.

Lemma find_by_id_Some (id : string) (l : list obj) (i : nat) (t : obj) :
  find_by_id id l = Some (i, t) ↔ findIndex id l = Some i ∧ l !! i = Some t.
Proof.
  split.
  - intros Hf. split; [unfold findIndex; by rewrite Hf|].
    by apply list_find_Some in Hf as (Hl & _).
  - intros [Hf Hl]. unfold findIndex in Hf.
    destruct (find_by_id id l) as [[j u]|] eqn:Hfind; [|done].
    injection Hf as ->. apply list_find_Some in Hfind as (Hl' & _).
    congruence.
Qed.

Lemma find_by_id_None (id : string) (l : list obj) :
  find_by_id id l = None ↔ findIndex id l = None.
Proof. unfold findIndex. by rewrite fmap_None. Qed.

Lemma with_task_found (st : state) (id : string) k (i : nat) (t : obj) :
  findIndex id (tasks st) = Some i → tasks st !! i = Some t →
  with_task st id k = k i t.
Proof.
  intros Hf Hl. unfold with_task.
  by rewrite (proj2 (find_by_id_Some id (tasks st) i t)).
Qed.

Lemma with_task_missing (st : state) (id : string) k :
  findIndex id (tasks st) = None → with_task st id k = (not_found, st, []).
Proof.
  intros Hf. unfold with_task. by rewrite (proj2 (find_by_id_None _ _)).
Qed.

Lemma with_visit_found (st : state) (id : string) k (i : nat) (v : obj) :
  findIndex id (visits st) = Some i → visits st !! i = Some v →
  with_visit st id k = k i v.
Proof.
  intros Hf Hl. unfold with_visit.
  by rewrite (proj2 (find_by_id_Some id (visits st) i v)).
Qed.

Lemma with_visit_missing (st : state) (id : string) k :
  findIndex id (visits st) = None → with_visit st id k = (not_found, st, []).
Proof.
  intros Hf. unfold with_visit. by rewrite (proj2 (find_by_id_None _ _)).
Qed.

Lemma stored_found (id : string) (l : list obj) :
  stored id l → ∃ i t, findIndex id l = Some i ∧ l !! i = Some t
                       ∧ has_id id t = true.
Proof.
  intros Hex. destruct (findIndex_Exists id l Hex) as [i Hf].
  pose proof Hf as Hf'. apply findIndex_Some in Hf' as (t & Hl & Ht & _).
  by exists i, t.
Qed.

(** ** Claiming a task *)

(** C4.  [claim]: when no task has the identifier the answer is 404 (and
    nothing changes); when a task has it, the task found becomes
    [reserved], [claimedBy] is the helper name of the request and
    [claimedAt] the current time, whatever its status was, and the answer
    is the updated task. *)
Theorem claim_sets_reserved (e : env) (st : state) (id : string) (b : obj) :
  (Forall (λ t, has_id id t = false) (tasks st) →
     handle e st (ClaimTask id b)
     = (Response 404 (PError "Not found"), st, []))
  ∧ (stored id (tasks st) →
     ∃ (i : nat) (t t' : obj),
       tasks st !! i = Some t ∧ has_id id t = true
       ∧ t' = <[ "claimedAt" := VStr (now e) ]>
              (<[ "claimedBy" := get b "helperName" ]>
              (<[ "status" := VStr "reserved" ]> t))
       ∧ get t' "status" = VStr "reserved"
       ∧ get t' "claimedBy" = get b "helperName"
       ∧ get t' "claimedAt" = VStr (now e)
       ∧ handle e st (ClaimTask id b)
         = (Response 200 (PObj t'),
            State (<[ i := t' ]> (tasks st)) (visits st) (helpers st)
                  (config st),
            [SaveTasks (<[ i := t' ]> (tasks st));
             Emit "tasks:update" (<[ i := t' ]> (tasks st))])).
Proof.
  split.
  - intros Hno. apply findIndex_None in Hno.
    cbn [handle]. unfold claim_task. by rewrite with_task_missing.
  - intros Hex. destruct (stored_found _ _ Hex) as (i & t & Hf & Hl & Ht).
    eexists i, t, _. split; [done|]. split; [done|]. split; [reflexivity|].
    repeat split; try (by read_props).
    cbn [handle]. unfold claim_task. by rewrite (with_task_found _ _ _ i t).
Qed.

Lemma claim_sets_reserved_witness :
  handle at_10 initial (ClaimTask "7d1f" sam)
  = (Response 404 (PError "Not found"), initial, [])
  ∧ ∃ (i : nat) (t t' : obj),
      tasks done_task !! i = Some t ∧ has_id "7d1f" t = true
      ∧ t' = <[ "claimedAt" := VStr (now at_12) ]>
             (<[ "claimedBy" := get lee "helperName" ]>
             (<[ "status" := VStr "reserved" ]> t))
      ∧ get t' "status" = VStr "reserved"
      ∧ get t' "claimedBy" = get lee "helperName"
      ∧ get t' "claimedAt" = VStr (now at_12)
      ∧ handle at_12 done_task (ClaimTask "7d1f" lee)
        = (Response 200 (PObj t'),
           State (<[ i := t' ]> (tasks done_task)) (visits done_task)
                 (helpers done_task) (config done_task),
           [SaveTasks (<[ i := t' ]> (tasks done_task));
            Emit "tasks:update" (<[ i := t' ]> (tasks done_task))]).
Proof.
  split.
  - apply (proj1 (claim_sets_reserved at_10 initial "7d1f" sam)).
    constructor.
  - apply (proj2 (claim_sets_reserved at_12 done_task "7d1f" lee)).
    left. vm_compute. reflexivity.
Defined.

(** ** Claim, then unclaim *)

(** C5.  For a task found by its identifier, whatever its status, a claim
    followed by an unclaim on the same identifier answers with the task at
    status [waiting] with [claimedBy] and [claimedAt] both [null]; that
    task is the one stored in the place of the original. *)
Theorem claim_then_unclaim (e e' : env) (st : state) (id : string) (b : obj) :
  stored id (tasks st) →
  ∃ (i : nat) (t t' : obj),
    tasks st !! i = Some t ∧ has_id id t = true
    ∧ handle e' (handle e st (ClaimTask id b)).1.2 (UnclaimTask id)
      = (Response 200 (PObj t'),
         State (<[ i := t' ]> (tasks st)) (visits st) (helpers st)
               (config st),
         [SaveTasks (<[ i := t' ]> (tasks st));
          Emit "tasks:update" (<[ i := t' ]> (tasks st))])
    ∧ get t' "status" = VStr "waiting"
    ∧ get t' "claimedBy" = VNull
    ∧ get t' "claimedAt" = VNull
    ∧ ∀ k, k ≠ "status" → k ≠ "claimedBy" → k ≠ "claimedAt" →
           t' !! k = t !! k.
Proof.
  intros Hex. destruct (stored_found _ _ Hex) as (i & t & Hf & Hl & Ht).
  exists i, t. eexists. split; [done|]. split; [done|].
  cbn [handle]. unfold claim_task.
  rewrite (with_task_found _ _ _ i t) by done.
  unfold store_task at 1. cbn [fst snd].
  unfold unclaim_task.
  erewrite with_task_found; cycle 1.
  - cbn [tasks]. apply findIndex_insert; [done|].
    by rewrite !has_id_insert.
  - cbn [tasks]. apply list_lookup_insert_eq. by eapply lookup_lt_Some.
  - unfold store_task. cbn [tasks visits helpers config].
    rewrite list_insert_insert_eq.
    split; [reflexivity|]. repeat split; try (by read_props).
    intros k H1 H2 H3. by rewrite !lookup_insert_ne.
Qed.

Lemma claim_then_unclaim_witness :
  ∃ (i : nat) (t t' : obj),
    tasks done_task !! i = Some t ∧ has_id "7d1f" t = true
    ∧ handle at_12 (handle at_12 done_task (ClaimTask "7d1f" lee)).1.2
             (UnclaimTask "7d1f")
      = (Response 200 (PObj t'),
         State (<[ i := t' ]> (tasks done_task)) (visits done_task)
               (helpers done_task) (config done_task),
         [SaveTasks (<[ i := t' ]> (tasks done_task));
          Emit "tasks:update" (<[ i := t' ]> (tasks done_task))])
    ∧ get t' "status" = VStr "waiting"
    ∧ get t' "claimedBy" = VNull
    ∧ get t' "claimedAt" = VNull
    ∧ ∀ k, k ≠ "status" → k ≠ "claimedBy" → k ≠ "claimedAt" →
           t' !! k = t !! k.
Proof.
  apply (claim_then_unclaim at_12 at_12 done_task "7d1f" lee).
  left. vm_compute. reflexivity.
Defined.

(** ** Frame of the by-id task operations *)

(** What each by-id operation writes on the task it found. *)
Lemma task_op_result (e : env) (st : state) (id : string) (b : obj)
    (r : request) (i : nat) (t : obj) :
  task_op id b r →
  findIndex id (tasks st) = Some i → tasks st !! i = Some t →
  ∃ t' : obj,
    handle e st r = store_task st i t'
    ∧ (r = ClaimTask id b ∨ r = UnclaimTask id →
       ∀ k, k ≠ "status" → k ≠ "claimedBy" → k ≠ "claimedAt" →
            t' !! k = t !! k)
    ∧ (r = CompleteTask id →
       ∀ k, k ≠ "status" → k ≠ "completedAt" → t' !! k = t !! k)
    ∧ (r = PutTask id b → ∀ k, b !! k = None → t' !! k = t !! k).
Proof.
  intros Hop Hf Hl.
  destruct Hop as [-> | [-> | [-> | ->]]]; cbn [handle];
    unfold claim_task, unclaim_task, complete_task, put_task;
    rewrite (with_task_found _ _ _ i t) by done;
    eexists; (split; [reflexivity|]);
    (split; [|split]); try (intros [?|?]; discriminate);
    try (intros ?; discriminate).
  - intros _ k H1 H2 H3. by rewrite !lookup_insert_ne.
  - intros _ k H1 H2 H3. by rewrite !lookup_insert_ne.
  - intros _ k H1 H2. by rewrite !lookup_insert_ne.
  - intros _ k Hk. by rewrite lookup_union_r.
Qed.

(** C10.  Frame of claim, unclaim and complete (and of update) on an
    identifier that is in the collection: the operation replaces the task
    found and nothing else.  Every other place of the collection, hence
    every task with a different identifier, is as before, and so are the
    visits, the helpers and the config with the PIN.  On the task itself,
    complete leaves every field but [status] and [completedAt] as it was
    ([claimedBy] among them), and update every field the body does not
    carry. *)
Theorem task_ops_frame (e : env) (st : state) (id : string) (b : obj)
    (r : request) :
  task_op id b r →
  stored id (tasks st) →
  ∃ (i : nat) (t t' : obj),
    findIndex id (tasks st) = Some i
    ∧ tasks st !! i = Some t
    ∧ (handle e st r).1.2
      = State (<[ i := t' ]> (tasks st)) (visits st) (helpers st) (config st)
    ∧ (∀ j, j ≠ i → tasks (handle e st r).1.2 !! j = tasks st !! j)
    ∧ (∀ j u, tasks st !! j = Some u → has_id id u = false →
              tasks (handle e st r).1.2 !! j = Some u)
    ∧ visits (handle e st r).1.2 = visits st
    ∧ helpers (handle e st r).1.2 = helpers st
    ∧ config (handle e st r).1.2 = config st
    ∧ (r = CompleteTask id →
       ∀ k, k ≠ "status" → k ≠ "completedAt" → t' !! k = t !! k)
    ∧ (r = CompleteTask id → get t' "claimedBy" = get t "claimedBy")
    ∧ (r = PutTask id b → ∀ k, b !! k = None → t' !! k = t !! k).
Proof.
  intros Hop Hex.
  destruct (stored_found _ _ Hex) as (i & t & Hf & Hl & Ht).
  destruct (task_op_result e st id b r i t Hop Hf Hl)
    as (t' & Hh & _ & Hc & Hp).
  exists i, t, t'. rewrite Hh. unfold store_task. cbn [fst snd tasks visits helpers config].
  repeat split; try done.
  - intros j Hj. by rewrite list_lookup_insert_ne.
  - intros j u Hj Hu. rewrite list_lookup_insert_ne; [done|].
    intros <-. congruence.
  - intros Hr. unfold get. rewrite (Hc Hr); done.
Qed.

Lemma task_ops_frame_witness :
  (length (tasks busy_board) = 2 ∧ length (visits busy_board) = 1
   ∧ length (helpers busy_board) = 1)
  ∧ (tasks (handle at_12 busy_board (ClaimTask "7d1f" retitle)).1.2 !! 0
     = Some (new_task at_10 milk)
     ∧ visits (handle at_12 busy_board (ClaimTask "7d1f" retitle)).1.2
       = visits busy_board
     ∧ helpers (handle at_12 busy_board (ClaimTask "7d1f" retitle)).1.2
       = helpers busy_board
     ∧ config (handle at_12 busy_board (ClaimTask "7d1f" retitle)).1.2
       = config busy_board)
  ∧ (tasks (handle at_12 busy_board (UnclaimTask "7d1f")).1.2 !! 0
     = Some (new_task at_10 milk)
     ∧ visits (handle at_12 busy_board (UnclaimTask "7d1f")).1.2
       = visits busy_board
     ∧ helpers (handle at_12 busy_board (UnclaimTask "7d1f")).1.2
       = helpers busy_board
     ∧ config (handle at_12 busy_board (UnclaimTask "7d1f")).1.2
       = config busy_board)
  ∧ (tasks (handle at_12 busy_board (CompleteTask "7d1f")).1.2 !! 0
     = Some (new_task at_10 milk)
     ∧ visits (handle at_12 busy_board (CompleteTask "7d1f")).1.2
       = visits busy_board
     ∧ helpers (handle at_12 busy_board (CompleteTask "7d1f")).1.2
       = helpers busy_board
     ∧ config (handle at_12 busy_board (CompleteTask "7d1f")).1.2
       = config busy_board)
  ∧ (tasks (handle at_12 busy_board (PutTask "7d1f" retitle)).1.2 !! 0
     = Some (new_task at_10 milk)
     ∧ visits (handle at_12 busy_board (PutTask "7d1f" retitle)).1.2
       = visits busy_board
     ∧ helpers (handle at_12 busy_board (PutTask "7d1f" retitle)).1.2
       = helpers busy_board
     ∧ config (handle at_12 busy_board (PutTask "7d1f" retitle)).1.2
       = config busy_board)
  ∧ (λ t, get t "claimedBy")
      <$> tasks (handle at_12 busy_board (CompleteTask "7d1f")).1.2 !! 1
    = Some (VStr "Sam")
  ∧ (λ t, (get t "status", get t "claimedBy"))
      <$> tasks (handle at_12 busy_board (PutTask "7d1f" retitle)).1.2 !! 1
    = Some (VStr "reserved", VStr "Sam").
Proof.
  assert (stored "7d1f" (tasks busy_board)) as Hex.
  { right. left. vm_compute. reflexivity. }
  assert (∀ r, task_op "7d1f" retitle r →
            tasks (handle at_12 busy_board r).1.2 !! 0
            = Some (new_task at_10 milk)
            ∧ visits (handle at_12 busy_board r).1.2 = visits busy_board
            ∧ helpers (handle at_12 busy_board r).1.2 = helpers busy_board
            ∧ config (handle at_12 busy_board r).1.2 = config busy_board)
    as Hframe.
  { intros r Hr.
    destruct (task_ops_frame at_12 busy_board "7d1f" retitle r Hr Hex)
      as (i & t & t' & _ & _ & _ & _ & Hdiff & Hv & Hh & Hc & _).
    split; [|by repeat split].
    by apply (Hdiff 0 (new_task at_10 milk)). }
  split; [by repeat split|].
  split; [apply Hframe; by left|].
  split; [apply Hframe; right; by left|].
  split; [apply Hframe; right; right; by left|].
  split; [apply Hframe; right; right; by right|].
  split.
  - destruct (task_ops_frame at_12 busy_board "7d1f" retitle
                (CompleteTask "7d1f")
                (or_intror (or_intror (or_introl eq_refl))) Hex)
      as (i & t & t' & Hf & Hl & Hst & _ & _ & _ & _ & _ & _ & Hby & _).
    vm_compute in Hf. injection Hf as <-.
    rewrite Hst. cbn [tasks]. rewrite list_lookup_insert_eq by (vm_compute; lia).
    cbn [fmap option_fmap option_map]. rewrite (Hby eq_refl).
    vm_compute in Hl. injection Hl as <-. reflexivity.
  - destruct (task_ops_frame at_12 busy_board "7d1f" retitle
                (PutTask "7d1f" retitle)
                (or_intror (or_intror (or_intror eq_refl))) Hex)
      as (i & t & t' & Hf & Hl & Hst & _ & _ & _ & _ & _ & _ & _ & Hput).
    vm_compute in Hf. injection Hf as <-.
    rewrite Hst. cbn [tasks]. rewrite list_lookup_insert_eq by (vm_compute; lia).
    cbn [fmap option_fmap option_map]. unfold get.
    rewrite !(Hput eq_refl) by reflexivity.
    vm_compute in Hl. injection Hl as <-. reflexivity.
Defined.

(** ** Booking a visit *)

Lemma absent_falsy (v : value) : absent v = true → truthy v = false.
Proof. by destruct v. Qed.

(** C3, as stated, fails: the handler refuses a booking when
    [visit.bookedBy] is truthy, not when the visit has been booked.  A
    visit booked with the empty helper name has been booked and not
    unbooked, and its [bookedBy] is set to that name; yet the next
    booking is answered 200, not 409, and replaces it. *)
Lemma book_after_unnamed :
  (handle at_10 one_visit (BookVisit "7d1f" unnamed)).1.1
  = Response 200 (PObj (<[ "bookedAt" := VStr (now at_10) ]>
                        (<[ "bookedBy" := VStr "" ]> (new_visit at_9 slot))))
  ∧ (λ v, (get v "bookedBy", get v "bookedAt")) <$> visits unnamed_visit
    = [(VStr "", VStr (now at_10))]
  ∧ status (handle at_11 unnamed_visit (BookVisit "7d1f" lee)).1.1 = 200
  ∧ (λ v, (get v "bookedBy", get v "bookedAt"))
      <$> visits (next unnamed_visit (at_11, BookVisit "7d1f" lee))
    = [(VStr "Lee", VStr (now at_11))].
Proof. repeat split; vm_compute; reflexivity. Qed.

(** C3, amended.  [book] on a visit found by its identifier.  When its
    [bookedBy] is truthy (what the handler tests: a non-empty helper
    name) the answer is 409 for every helper name and nothing changes,
    [bookedBy] and [bookedAt] of the visit included.  When [bookedBy] is
    absent the answer is the visit with [bookedBy] the helper name of the
    request and [bookedAt] the current time. *)
Theorem book_first_wins (e : env) (st : state) (id : string) (b : obj)
    (i : nat) (v : obj) :
  findIndex id (visits st) = Some i → visits st !! i = Some v →
  (truthy (get v "bookedBy") = true →
     handle e st (BookVisit id b)
     = (Response 409 (PError "Already booked"), st, []))
  ∧ (absent (get v "bookedBy") = true →
     ∃ v' : obj,
       v' = <[ "bookedAt" := VStr (now e) ]>
            (<[ "bookedBy" := get b "helperName" ]> v)
       ∧ get v' "bookedBy" = get b "helperName"
       ∧ get v' "bookedAt" = VStr (now e)
       ∧ handle e st (BookVisit id b)
         = (Response 200 (PObj v'),
            State (tasks st) (<[ i := v' ]> (visits st)) (helpers st)
                  (config st),
            [SaveVisits (<[ i := v' ]> (visits st));
             Emit "visits:update" (<[ i := v' ]> (visits st))])).
Proof.
  intros Hf Hl. cbn [handle]. unfold book_visit.
  rewrite (with_visit_found _ _ _ i v) by done. split.
  - by intros ->.
  - intros Ha. rewrite (absent_falsy _ Ha).
    eexists. split; [reflexivity|]. repeat split; by read_props.
Qed.

Lemma book_first_wins_witness :
  handle at_11 kim_visit (BookVisit "7d1f" lee)
  = (Response 409 (PError "Already booked"), kim_visit, [])
  ∧ ∃ v' : obj,
      v' = <[ "bookedAt" := VStr (now at_10) ]>
           (<[ "bookedBy" := get kim "helperName" ]> (new_visit at_9 slot))
      ∧ get v' "bookedBy" = get kim "helperName"
      ∧ get v' "bookedAt" = VStr (now at_10)
      ∧ handle at_10 one_visit (BookVisit "7d1f" kim)
        = (Response 200 (PObj v'),
           State (tasks one_visit) (<[ 0 := v' ]> (visits one_visit))
                 (helpers one_visit) (config one_visit),
           [SaveVisits (<[ 0 := v' ]> (visits one_visit));
            Emit "visits:update" (<[ 0 := v' ]> (visits one_visit))]).
Proof.
  split.
  - apply (proj1 (book_first_wins at_11 kim_visit "7d1f" lee 0
                    (<[ "bookedAt" := VStr (now at_10) ]>
                     (<[ "bookedBy" := VStr "Kim" ]> (new_visit at_9 slot)))
                    eq_refl eq_refl)).
    vm_compute. reflexivity.
  - apply (proj2 (book_first_wins at_10 one_visit "7d1f" kim 0
                    (new_visit at_9 slot) eq_refl eq_refl)).
    vm_compute. reflexivity.
Defined.

(** ** Registering a helper *)

Lemma find_helper_new (n : string) (l : list obj) (h : obj) :
  find_helper n l = None → get h "name" = VStr n →
  find_helper n (l ++ [h])%list = Some h.
Proof.
  unfold find_helper. intros Hno Hh.
  apply fmap_None in Hno. rewrite (list_find_app_r _ _ _ Hno).
  cbn. rewrite decide_True; [done|].
  rewrite Hh. cbn. apply String.eqb_refl.
Qed.

(** C6.  Registering twice a name that is not blank after trimming: both
    registrations answer 200 with the same record, hence the same
    identifier; the second one leaves the whole store, the helper
    collection in particular, as the first one left it; and the branch
    that finds an existing record neither saves nor broadcasts. *)
Theorem register_twice (e1 e2 : env) (st : state) (b : obj) (s : string) :
  get b "name" = VStr s → trim s ≠ "" →
  (∃ h : obj,
     (handle e1 st (PostHelper b)).1.1 = Response 200 (PObj h)
     ∧ handle e2 (handle e1 st (PostHelper b)).1.2 (PostHelper b)
       = (Response 200 (PObj h), (handle e1 st (PostHelper b)).1.2, []))
  ∧ (∀ h : obj, find_helper (trim s) (helpers st) = Some h →
       handle e1 st (PostHelper b) = (Response 200 (PObj h), st, [])).
Proof.
  intros Hb Hs.
  assert (String.eqb s "" || String.eqb (trim s) "" = false) as Hblank.
  { apply orb_false_intro; apply String.eqb_neq; [|done].
    intros ->. by apply Hs. }
  cbn [handle]. unfold post_helper. rewrite Hb, Hblank.
  destruct (find_helper (trim s) (helpers st)) as [h|] eqn:Hfind.
  - split; [|by intros ? [= ->]].
    exists h. split; [done|]. cbn [fst snd]. by rewrite Hfind.
  - split; [|done]. eexists. split; [reflexivity|].
    cbn [fst snd helpers].
    erewrite find_helper_new; [reflexivity|done|by read_props].
Qed.

Lemma register_twice_witness :
  (∃ h : obj,
     (handle at_9 initial (PostHelper sam_name)).1.1 = Response 200 (PObj h)
     ∧ handle at_10 (handle at_9 initial (PostHelper sam_name)).1.2
              (PostHelper sam_name)
       = (Response 200 (PObj h),
          (handle at_9 initial (PostHelper sam_name)).1.2, []))
  ∧ (∀ h : obj, find_helper (trim "  Sam ") (helpers initial) = Some h →
       handle at_9 initial (PostHelper sam_name)
       = (Response 200 (PObj h), initial, [])).
Proof.
  apply (register_twice at_9 at_10 initial sam_name "  Sam ").
  - reflexivity.
  - vm_compute. discriminate.
Defined.

(** ** The PIN *)




(** ** What a request does to a collection *)

(** The task collection after a request: case analysis on the handler
    that ran. *)
Lemma tasks_step (P : list obj → Prop) (e : env) (st : state) (r : request) :
  P (tasks st) →
  (∀ b, r = PostTask b → P (new_task e b :: tasks st)) →
  (∀ id, r = DeleteTask id → P (remove_id id (tasks st))) →
  (∀ id b i t, r = PutTask id b →
     findIndex id (tasks st) = Some i → tasks st !! i = Some t →
     P (<[ i := b ∪ t ]> (tasks st))) →
  (∀ id b i t, r = ClaimTask id b →
     findIndex id (tasks st) = Some i → tasks st !! i = Some t →
     P (<[ i := <[ "claimedAt" := VStr (now e) ]>
                 (<[ "claimedBy" := get b "helperName" ]>
                 (<[ "status" := VStr "reserved" ]> t)) ]> (tasks st))) →
  (∀ id i t, r = UnclaimTask id →
     findIndex id (tasks st) = Some i → tasks st !! i = Some t →
     P (<[ i := <[ "claimedAt" := VNull ]>
                 (<[ "claimedBy" := VNull ]>
                 (<[ "status" := VStr "waiting" ]> t)) ]> (tasks st))) →
  (∀ id i t, r = CompleteTask id →
     findIndex id (tasks st) = Some i → tasks st !! i = Some t →
     P (<[ i := <[ "completedAt" := VStr (now e) ]>
                 (<[ "status" := VStr "done" ]> t) ]> (tasks st))) →
  P (tasks (next st (e, r))).
Proof.
  intros Hst Hpost Hdel Hput Hclaim Hunclaim Hcomplete.
  unfold next. cbn [fst snd].
  destruct r; cbn [handle]; try exact Hst.
  - by apply Hpost.
  - unfold put_task, with_task.
    destruct (find_by_id id (tasks st)) as [[i t]|] eqn:Hfind; [|exact Hst].
    apply find_by_id_Some in Hfind as [Hf Hl].
    by eapply Hput.
  - by apply Hdel.
  - unfold claim_task, with_task.
    destruct (find_by_id id (tasks st)) as [[i t]|] eqn:Hfind; [|exact Hst].
    apply find_by_id_Some in Hfind as [Hf Hl].
    by eapply Hclaim.
  - unfold unclaim_task, with_task.
    destruct (find_by_id id (tasks st)) as [[i t]|] eqn:Hfind; [|exact Hst].
    apply find_by_id_Some in Hfind as [Hf Hl].
    by eapply Hunclaim.
  - unfold complete_task, with_task.
    destruct (find_by_id id (tasks st)) as [[i t]|] eqn:Hfind; [|exact Hst].
    apply find_by_id_Some in Hfind as [Hf Hl].
    by eapply Hcomplete.
  - unfold book_visit, with_visit.
    destruct (find_by_id id (visits st)) as [[i v]|]; [|exact Hst].
    by destruct (truthy (get v "bookedBy")).
  - unfold unbook_visit, with_visit.
    by destruct (find_by_id id (visits st)) as [[i v]|].
  - unfold post_helper.
    destruct (get b "name") as [| |c|x|s| |]; cbn [truthy];
      repeat case_match; exact Hst.
  - unfold set_pin. by case_match.
Qed.

(** The visit collection after a request. *)
Lemma visits_step (P : list obj → Prop) (e : env) (st : state) (r : request) :
  P (visits st) →
  (∀ b, r = PostVisit b → P (visits st ++ [new_visit e b])%list) →
  (∀ id, r = DeleteVisit id → P (remove_id id (visits st))) →
  (∀ id b i v, r = BookVisit id b →
     findIndex id (visits st) = Some i → visits st !! i = Some v →
     truthy (get v "bookedBy") = false →
     P (<[ i := <[ "bookedAt" := VStr (now e) ]>
                 (<[ "bookedBy" := get b "helperName" ]> v) ]> (visits st))) →
  (∀ id i v, r = UnbookVisit id →
     findIndex id (visits st) = Some i → visits st !! i = Some v →
     P (<[ i := <[ "bookedAt" := VNull ]>
                 (<[ "bookedBy" := VNull ]> v) ]> (visits st))) →
  P (visits (next st (e, r))).
Proof.
  intros Hst Hpost Hdel Hbook Hunbook.
  unfold next. cbn [fst snd].
  destruct r; cbn [handle]; try exact Hst.
  - unfold put_task, with_task. repeat case_match; exact Hst.
  - unfold claim_task, with_task. repeat case_match; exact Hst.
  - unfold unclaim_task, with_task. repeat case_match; exact Hst.
  - unfold complete_task, with_task. repeat case_match; exact Hst.
  - by apply Hpost.
  - unfold book_visit, with_visit.
    destruct (find_by_id id (visits st)) as [[i v]|] eqn:Hfind; [|exact Hst].
    apply find_by_id_Some in Hfind as [Hf Hl].
    destruct (truthy (get v "bookedBy")) eqn:Hb; [exact Hst|].
    by eapply Hbook.
  - unfold unbook_visit, with_visit.
    destruct (find_by_id id (visits st)) as [[i v]|] eqn:Hfind; [|exact Hst].
    apply find_by_id_Some in Hfind as [Hf Hl].
    by eapply Hunbook.
  - by apply Hdel.
  - unfold post_helper.
    destruct (get b "name") as [| |c|x|s| |]; cbn [truthy];
      repeat case_match; exact Hst.
  - unfold set_pin. by case_match.
Qed.

Lemma run_cons (st : state) (x : env * request) (tr : list (env * request)) :
  run st (x :: tr) = run (next st x) tr.
Proof. reflexivity. Qed.

Lemma Forall_remove_id (P : obj → Prop) (id : string) (l : list obj) :
  Forall P l → Forall P (remove_id id l).
Proof.
  intros H. unfold remove_id. apply Forall_forall. intros t Ht.
  apply list_elem_of_filter in Ht as [_ Ht].
  rewrite Forall_forall in H. by apply H.
Qed.

(** ** The status invariant of tasks *)

(** C1, as stated, fails in three ways.  Claiming a completed task gives a
    [reserved] task that still has its [completedAt]; an update writes any
    status on a task; a claim without a helper name gives a [reserved]
    task without [claimedBy]. *)
Lemma status_invariant_broken :
  ¬ Forall (λ t, status_invariant t = true)
      (tasks (run initial [(at_9, PostTask milk);
                           (at_10, CompleteTask "7d1f");
                           (at_11, ClaimTask "7d1f" sam)]))
  ∧ ¬ Forall (λ t, status_invariant t = true)
      (tasks (run initial [(at_9, PostTask milk);
                           (at_10, PutTask "7d1f"
                                     {[ "status" := VStr "reserved" ]})]))
  ∧ ¬ Forall (λ t, status_invariant t = true)
      (tasks (run initial [(at_9, PostTask milk);
                           (at_10, ClaimTask "7d1f" ∅)])).
Proof.
  repeat split; intros H; apply Forall_cons_1 in H as [H _];
    vm_compute in H; discriminate.
Qed.

Lemma claim_invariant_ext (t t' : obj) :
  get t' "status" = get t "status" →
  get t' "claimedBy" = get t "claimedBy" →
  get t' "claimedAt" = get t "claimedAt" →
  get t' "completedAt" = get t "completedAt" →
  claim_invariant t' = claim_invariant t.
Proof. unfold claim_invariant. by intros -> -> -> ->. Qed.

Lemma get_union_r (b t : obj) (k : string) :
  b !! k = None → get (b ∪ t) k = get t k.
Proof. intros Hk. unfold get. by rewrite lookup_union_r. Qed.

Lemma orderly_step (e : env) (st : state) (r : request) :
  orderly r →
  Forall (λ t, claim_invariant t = true) (tasks st) →
  Forall (λ t, claim_invariant t = true) (tasks (next st (e, r))).
Proof.
  intros Hr Hst. apply tasks_step; [done|..].
  - intros b _. by apply Forall_cons.
  - intros id _. by apply Forall_remove_id.
  - intros id b i t -> _ Hl. destruct Hr as (H1 & H2 & H3 & H4).
    apply Forall_insert; [done|].
    rewrite (claim_invariant_ext t) by by apply get_union_r.
    by eapply (Forall_lookup_1 _ _ _ _ Hst).
  - intros id b i t -> _ _. cbn in Hr.
    apply Forall_insert; [done|].
    unfold claim_invariant. read_props. cbn. by rewrite Hr.
  - intros id i t _ _ _. apply Forall_insert; [done|].
    unfold claim_invariant. by read_props.
  - intros id i t _ _ _. apply Forall_insert; [done|].
    unfold claim_invariant. by read_props.
Qed.

Lemma orderly_run (tr : list (env * request)) (st : state) :
  Forall (λ x, orderly x.2) tr →
  Forall (λ t, claim_invariant t = true) (tasks st) →
  Forall (λ t, claim_invariant t = true) (tasks (run st tr)).
Proof.
  revert st. induction tr as [|[e r] tr IH]; intros st Htr Hst; [done|].
  apply Forall_cons_1 in Htr as [Hr Htr].
  rewrite run_cons. apply IH; [done|]. by apply orderly_step.
Qed.

(** C1, amended.  After any sequence of requests from the empty store in
    which no update carries [status], [claimedBy], [claimedAt] or
    [completedAt] and every claim names its helper, every stored task
    satisfies: [waiting] implies [claimedBy] and [claimedAt] absent;
    [reserved] implies [claimedBy] and [claimedAt] present; [done]
    implies [completedAt] present. *)
Theorem status_invariant_orderly (tr : list (env * request)) :
  Forall (λ x, orderly x.2) tr →
  Forall (λ t, claim_invariant t = true) (tasks (run initial tr)).
Proof. intros Htr. by apply orderly_run. Qed.

Lemma status_invariant_orderly_witness :
  Forall (λ t, claim_invariant t = true)
    (tasks (run initial [(at_9, PostTask milk);
                         (at_10, CompleteTask "7d1f");
                         (at_11, ClaimTask "7d1f" sam);
                         (at_12, PutTask "7d1f" milk)])).
Proof.
  apply (status_invariant_orderly
           [(at_9, PostTask milk); (at_10, CompleteTask "7d1f");
            (at_11, ClaimTask "7d1f" sam); (at_12, PutTask "7d1f" milk)]).
  repeat constructor.
Defined.

(** ** The booking invariant of visits *)

(** C2, as stated, fails: booking without a helper name stores
    [bookedAt] and leaves [bookedBy] absent. *)
Lemma booking_invariant_broken :
  ¬ Forall (λ v, present (get v "bookedBy") = true
                 ↔ present (get v "bookedAt") = true)
      (visits (run initial [(at_9, PostVisit slot);
                            (at_10, BookVisit "7d1f" ∅)])).
Proof.
  intros H. apply Forall_cons_1 in H as [[_ H] _].
  specialize (H eq_refl). vm_compute in H. discriminate.
Qed.

Lemma names_helper_step (e : env) (st : state) (r : request) :
  names_helper r →
  Forall (λ v, booking_invariant v = true) (visits st) →
  Forall (λ v, booking_invariant v = true) (visits (next st (e, r))).
Proof.
  intros Hr Hst. apply visits_step; [done|..].
  - intros b _. apply Forall_app. split; [done|]. by apply Forall_singleton.
  - intros id _. by apply Forall_remove_id.
  - intros id b i v -> _ _ _. cbn in Hr.
    apply Forall_insert; [done|].
    unfold booking_invariant. read_props. by rewrite Hr.
  - intros id i v _ _ _. apply Forall_insert; [done|].
    unfold booking_invariant. by read_props.
Qed.

Lemma names_helper_run (tr : list (env * request)) (st : state) :
  Forall (λ x, names_helper x.2) tr →
  Forall (λ v, booking_invariant v = true) (visits st) →
  Forall (λ v, booking_invariant v = true) (visits (run st tr)).
Proof.
  revert st. induction tr as [|[e r] tr IH]; intros st Htr Hst; [done|].
  apply Forall_cons_1 in Htr as [Hr Htr].
  rewrite run_cons. apply IH; [done|]. by apply names_helper_step.
Qed.

(** C2, amended.  After any sequence of requests from the empty store in
    which every booking carries a helper name that is neither absent nor
    [null], every stored visit has [bookedBy] present if and only if
    [bookedAt] is present. *)
Theorem booking_invariant_named (tr : list (env * request)) :
  Forall (λ x, names_helper x.2) tr →
  Forall (λ v, present (get v "bookedBy") = true
               ↔ present (get v "bookedAt") = true)
    (visits (run initial tr)).
Proof.
  intros Htr.
  eapply Forall_impl; [by apply names_helper_run|].
  intros v Hv. unfold booking_invariant in Hv.
  apply Bool.eqb_prop in Hv. by rewrite Hv.
Qed.

Lemma booking_invariant_named_witness :
  Forall (λ v, present (get v "bookedBy") = true
               ↔ present (get v "bookedAt") = true)
    (visits (run initial [(at_9, PostVisit slot);
                          (at_10, BookVisit "7d1f" kim);
                          (at_11, BookVisit "7d1f" lee);
                          (at_12, PostVisit ∅)])).
Proof.
  apply (booking_invariant_named
           [(at_9, PostVisit slot); (at_10, BookVisit "7d1f" kim);
            (at_11, BookVisit "7d1f" lee); (at_12, PostVisit ∅)]).
  repeat constructor.
Defined.

(** ** Uniqueness of the task identifiers *)

(** C8, as stated, fails: the identifiers drawn are distinct, and an
    update that carries the [id] of another task leaves two tasks with
    one identifier. *)
Lemma task_ids_collide :
  ¬ NoDup (task_ids
             (run initial [(at_9, PostTask milk);
                           (at_10, PostTask milk);
                           (at_11, PutTask "7d1f"
                                     {[ "id" := VStr "3c2a" ]})])).
Proof.
  intros H. vm_compute in H.
  apply NoDup_cons in H as [H _]. apply H. by left.
Qed.

Lemma task_ids_insert (st : state) (i : nat) (t t' : obj) :
  tasks st !! i = Some t → get t' "id" = get t "id" →
  (λ u, get u "id") <$> <[ i := t' ]> (tasks st) = task_ids st.
Proof.
  intros Hl Hid. unfold task_ids. rewrite list_fmap_insert, Hid.
  apply list_insert_id. by rewrite list_lookup_fmap, Hl.
Qed.

Lemma task_ids_remove (id : string) (l : list obj) :
  ((λ u, get u "id") <$> remove_id id l)
    `sublist_of` ((λ u, get u "id") <$> l).
Proof. unfold remove_id. apply fmap_sublist, sublist_filter. Qed.

(** The invariant behind C8: the identifiers stored are distinct, and
    none of them is an identifier still to be drawn. *)
Lemma keeps_id_step (e : env) (st : state) (r : request)
    (later : list string) :
  keeps_id r →
  NoDup (drawn [(e, r)] ++ later) →
  NoDup (task_ids st) →
  (∀ u, u ∈ (drawn [(e, r)] ++ later)%list → VStr u ∉ task_ids st) →
  NoDup (task_ids (next st (e, r)))
  ∧ ∀ u, u ∈ later → VStr u ∉ task_ids (next st (e, r)).
Proof.
  intros Hr Hdrawn Hnd Hfresh. unfold task_ids.
  apply (tasks_step
           (λ l, NoDup ((λ t, get t "id") <$> l)
                 ∧ ∀ u, u ∈ later → VStr u ∉ (λ t, get t "id") <$> l)).
  - split; [done|]. intros u Hu. apply Hfresh.
    apply elem_of_app. by right.
  - intros b ->. cbn in Hdrawn, Hfresh. apply NoDup_cons in Hdrawn as [Hu Hl].
    rewrite fmap_cons. change (get (new_task e b) "id") with (VStr (uuid e)).
    split.
    + apply NoDup_cons. split; [|done]. apply Hfresh. by left.
    + intros u Hu' [Heq|Hin]%elem_of_cons.
      * injection Heq as ->. done.
      * revert Hin. apply Hfresh. by right.
  - intros id _. split.
    + eapply sublist_NoDup; [exact Hnd|]. apply task_ids_remove.
    + intros u Hu Hin. eapply (Hfresh u).
      * apply elem_of_app. by right.
      * by eapply (sublist_subseteq _ _ (task_ids_remove id (tasks st))).
  - intros id b i t -> _ Hl. cbn in Hr.
    rewrite (task_ids_insert st i t) by (by try apply get_union_r).
    split; [done|]. intros u Hu. apply Hfresh. apply elem_of_app. by right.
  - intros id b i t -> _ Hl.
    rewrite (task_ids_insert st i t) by (by try read_props).
    split; [done|]. intros u Hu. apply Hfresh. apply elem_of_app. by right.
  - intros id i t -> _ Hl.
    rewrite (task_ids_insert st i t) by (by try read_props).
    split; [done|]. intros u Hu. apply Hfresh. apply elem_of_app. by right.
  - intros id i t -> _ Hl.
    rewrite (task_ids_insert st i t) by (by try read_props).
    split; [done|]. intros u Hu. apply Hfresh. apply elem_of_app. by right.
Qed.

Lemma drawn_cons (x : env * request) (tr : list (env * request)) :
  drawn (x :: tr) = (drawn [x] ++ drawn tr)%list.
Proof. unfold drawn. cbn. by case_match. Qed.

Lemma keeps_id_run (tr : list (env * request)) (st : state) :
  Forall (λ x, keeps_id x.2) tr →
  NoDup (drawn tr) →
  NoDup (task_ids st) →
  (∀ u, u ∈ drawn tr → VStr u ∉ task_ids st) →
  NoDup (task_ids (run st tr)).
Proof.
  revert st.
  induction tr as [|[e r] tr IH]; intros st Htr Hdrawn Hnd Hfresh; [done|].
  apply Forall_cons_1 in Htr as [Hr Htr]. rewrite drawn_cons in Hdrawn, Hfresh.
  destruct (keeps_id_step e st r (drawn tr) Hr Hdrawn Hnd Hfresh)
    as [Hnd' Hfresh'].
  rewrite run_cons. apply IH; [done| |done..].
  by apply NoDup_app in Hdrawn as (_ & _ & ?).
Qed.

(** C8, amended.  With [uuidv4()] never returning one identifier twice,
    after any sequence of requests from the empty store in which no update
    carries an [id], no two stored tasks have the same identifier. *)
Theorem task_ids_unique (tr : list (env * request)) :
  NoDup (drawn tr) →
  Forall (λ x, keeps_id x.2) tr →
  NoDup (task_ids (run initial tr)).
Proof.
  intros Hdrawn Htr. apply keeps_id_run; [done..|constructor|].
  intros u _ Hin. by apply elem_of_nil in Hin.
Qed.

Lemma task_ids_unique_witness :
  NoDup (task_ids
           (run initial [(at_9, PostTask milk);
                         (at_10, PostTask milk);
                         (at_11, PutTask "7d1f" milk);
                         (at_12, DeleteTask "3c2a")])).
Proof.
  apply (task_ids_unique
           [(at_9, PostTask milk); (at_10, PostTask milk);
            (at_11, PutTask "7d1f" milk); (at_12, DeleteTask "3c2a")]).
  - vm_compute. apply NoDup_cons. split.
    + intros [H|H]%elem_of_cons; [discriminate|by apply elem_of_nil in H].
    + apply NoDup_singleton.
  - repeat constructor.
Defined.

(** * Further properties of the handlers *)

(** ** Errors *)

(** X1.  A request that is answered 400, 403, 404 or 409 has done
    nothing: the store is as before and nothing was saved or broadcast.
    (The handlers send these four before their first write.) *)
Theorem error_changes_nothing (e : env) (st : state) (r : request) :
  status (handle e st r).1.1 = 400 ∨ status (handle e st r).1.1 = 403
  ∨ status (handle e st r).1.1 = 404 ∨ status (handle e st r).1.1 = 409 →
  (handle e st r).1.2 = st ∧ (handle e st r).2 = [].
Proof.
  destruct r; cbn [handle];
    unfold get_tasks, post_task, put_task, delete_task, claim_task,
      unclaim_task, complete_task, get_visits, post_visit, book_visit,
      unbook_visit, delete_visit, get_helpers, post_helper, verify_pin,
      set_pin, with_task, with_visit, store_task, store_visit;
    repeat case_match; cbn; intros [?|[?|[?|?]]]; done.
Qed.

Lemma error_changes_nothing_witness :
  ((handle at_11 kim_visit (BookVisit "7d1f" lee)).1.2 = kim_visit
   ∧ (handle at_11 kim_visit (BookVisit "7d1f" lee)).2 = [])
  ∧ ((handle at_11 busy_board (PostHelper blank_name)).1.2 = busy_board
     ∧ (handle at_11 busy_board (PostHelper blank_name)).2 = [])
  ∧ ((handle at_11 busy_board (SetPin wrong_change)).1.2 = busy_board
     ∧ (handle at_11 busy_board (SetPin wrong_change)).2 = [])
  ∧ ((handle at_11 busy_board (CompleteTask "none")).1.2 = busy_board
     ∧ (handle at_11 busy_board (CompleteTask "none")).2 = []).
Proof.
  split; [|split; [|split]].
  - apply (error_changes_nothing at_11 kim_visit (BookVisit "7d1f" lee)).
    right. right. right. reflexivity.
  - apply (error_changes_nothing at_11 busy_board (PostHelper blank_name)).
    left. reflexivity.
  - apply (error_changes_nothing at_11 busy_board (SetPin wrong_change)).
    right. left. reflexivity.
  - apply (error_changes_nothing at_11 busy_board (CompleteTask "none")).
    right. right. left. reflexivity.
Defined.

(** X2.  Every handler writes on its own variable only: the task
    requests leave visits, helpers and config alone, the visit requests
    tasks, helpers and config, the registration tasks, visits and config,
    [set-pin] the three collections; the reads and [verify-pin] leave the
    whole store as it is. *)
Theorem handlers_keep_apart (e : env) (st : state) (r : request) :
  match r with
  | PostTask _ | PutTask _ _ | DeleteTask _ | ClaimTask _ _
  | UnclaimTask _ | CompleteTask _ =>
    visits (next st (e, r)) = visits st
    ∧ helpers (next st (e, r)) = helpers st
    ∧ config (next st (e, r)) = config st
  | PostVisit _ | BookVisit _ _ | UnbookVisit _ | DeleteVisit _ =>
    tasks (next st (e, r)) = tasks st
    ∧ helpers (next st (e, r)) = helpers st
    ∧ config (next st (e, r)) = config st
  | PostHelper _ =>
    tasks (next st (e, r)) = tasks st
    ∧ visits (next st (e, r)) = visits st
    ∧ config (next st (e, r)) = config st
  | SetPin _ =>
    tasks (next st (e, r)) = tasks st
    ∧ visits (next st (e, r)) = visits st
    ∧ helpers (next st (e, r)) = helpers st
  | GetTasks | GetVisits | GetHelpers | VerifyPin _ =>
    next st (e, r) = st ∧ (handle e st r).2 = []
  end.
Proof.
  unfold next. cbn [fst snd].
  destruct r; cbn [handle];
    unfold get_tasks, post_task, put_task, delete_task, claim_task,
      unclaim_task, complete_task, get_visits, post_visit, book_visit,
      unbook_visit, delete_visit, get_helpers, post_helper, verify_pin,
      set_pin, with_task, with_visit, store_task, store_visit;
    repeat case_match; done.
Qed.

(** ** Deleting *)

Lemma remove_id_absent (id : string) (l : list obj) :
  findIndex id l = None → remove_id id l = l.
Proof.
  intros Hno. apply findIndex_None in Hno. unfold remove_id.
  induction Hno as [|t l Ht _ IH]; [done|].
  by rewrite filter_cons_True, IH.
Qed.

Lemma remove_id_gone (id : string) (l : list obj) :
  findIndex id (remove_id id l) = None.
Proof.
  apply findIndex_None, Forall_forall. intros t Ht.
  by apply list_elem_of_filter in Ht as [Ht _].
Qed.

(** X3.  [DELETE /api/tasks/:id] and [DELETE /api/visits/:id] always
    answer [ok: true], save and broadcast.  Afterwards no record with the
    identifier is left, whereas the records with another identifier are
    all there, in their order. *)
Theorem delete_removes (e : env) (st : state) (id : string) :
  (handle e st (DeleteTask id)
   = (Response 200 (POk true),
      State (remove_id id (tasks st)) (visits st) (helpers st) (config st),
      [SaveTasks (remove_id id (tasks st));
       Emit "tasks:update" (remove_id id (tasks st))])
   ∧ findIndex id (remove_id id (tasks st)) = None
   ∧ remove_id id (tasks st) `sublist_of` tasks st
   ∧ ∀ t, t ∈ remove_id id (tasks st) ↔ t ∈ tasks st ∧ has_id id t = false)
  ∧ (handle e st (DeleteVisit id)
     = (Response 200 (POk true),
        State (tasks st) (remove_id id (visits st)) (helpers st) (config st),
        [SaveVisits (remove_id id (visits st));
         Emit "visits:update" (remove_id id (visits st))])
     ∧ findIndex id (remove_id id (visits st)) = None
     ∧ remove_id id (visits st) `sublist_of` visits st
     ∧ ∀ v, v ∈ remove_id id (visits st)
            ↔ v ∈ visits st ∧ has_id id v = false).
Proof.
  split; (split; [reflexivity|]); (split; [apply remove_id_gone|]);
    (split; [apply sublist_filter|]);
    intros t; unfold remove_id; rewrite list_elem_of_filter; tauto.
Qed.

(** X4.  Deleting is idempotent: when no record has the identifier the
    collection stays as it is (the handler still answers [ok: true]), so
    a second delete of the same identifier changes nothing. *)
Theorem delete_idempotent (e e' : env) (st : state) (id : string) :
  (findIndex id (tasks st) = None → next st (e, DeleteTask id) = st)
  ∧ (findIndex id (visits st) = None → next st (e, DeleteVisit id) = st)
  ∧ next (next st (e, DeleteTask id)) (e', DeleteTask id)
    = next st (e, DeleteTask id)
  ∧ next (next st (e, DeleteVisit id)) (e', DeleteVisit id)
    = next st (e, DeleteVisit id).
Proof.
  unfold next. cbn [fst snd handle]. unfold delete_task, delete_visit.
  cbn [fst snd tasks visits helpers config].
  repeat split.
  - intros H. rewrite remove_id_absent by done. by destruct st.
  - intros H. rewrite remove_id_absent by done. by destruct st.
  - by rewrite (remove_id_absent id (remove_id id (tasks st)))
      by apply remove_id_gone.
  - by rewrite (remove_id_absent id (remove_id id (visits st)))
      by apply remove_id_gone.
Qed.

Lemma delete_idempotent_witness :
  next one_task (at_10, DeleteTask "none") = one_task
  ∧ next one_visit (at_10, DeleteVisit "none") = one_visit.
Proof.
  split.
  - apply (proj1 (delete_idempotent at_10 at_10 one_task "none")).
    reflexivity.
  - apply (proj1 (proj2 (delete_idempotent at_10 at_10 one_visit "none"))).
    reflexivity.
Defined.

(** X5.  After a delete, every by-id request on the identifier is
    answered 404 and does nothing. *)
Theorem deleted_not_found (e e' : env) (st : state) (id : string)
    (r : request) :
  (task_by_id id r →
   handle e' (next st (e, DeleteTask id)) r
   = (Response 404 (PError "Not found"), next st (e, DeleteTask id), []))
  ∧ (visit_by_id id r →
     handle e' (next st (e, DeleteVisit id)) r
     = (Response 404 (PError "Not found"), next st (e, DeleteVisit id), [])).
Proof.
  split.
  - intros [[b ->]|[[b ->]|[->| ->]]]; cbn [handle];
      unfold put_task, claim_task, unclaim_task, complete_task;
      by rewrite with_task_missing by apply remove_id_gone.
  - intros [[b ->]| ->]; cbn [handle]; unfold book_visit, unbook_visit;
      by rewrite with_visit_missing by apply remove_id_gone.
Qed.

Lemma deleted_not_found_witness :
  handle at_11 (next one_task (at_10, DeleteTask "7d1f"))
         (ClaimTask "7d1f" sam)
  = (Response 404 (PError "Not found"),
     next one_task (at_10, DeleteTask "7d1f"), [])
  ∧ handle at_11 (next kim_visit (at_10, DeleteVisit "7d1f"))
           (UnbookVisit "7d1f")
    = (Response 404 (PError "Not found"),
       next kim_visit (at_10, DeleteVisit "7d1f"), []).
Proof.
  split.
  - apply (proj1 (deleted_not_found at_10 at_11 one_task "7d1f"
                    (ClaimTask "7d1f" sam))).
    right. left. by exists sam.
  - apply (proj2 (deleted_not_found at_10 at_11 kim_visit "7d1f"
                    (UnbookVisit "7d1f"))).
    by right.
Defined.

(** ** Sequences of by-id requests *)

(** The record written by a by-id handler is the one the next by-id
    request on the identifier finds. *)
Lemma found_after_insert (id : string) (l : list obj) (i : nat) (t t' : obj) :
  findIndex id l = Some i → l !! i = Some t → has_id id t' = true →
  findIndex id (<[ i := t' ]> l) = Some i ∧ <[ i := t' ]> l !! i = Some t'.
Proof.
  intros Hf Hl Ht'. split; [by apply findIndex_insert|].
  apply list_lookup_insert_eq. by eapply lookup_lt_Some.
Qed.

Lemma found_has_id (id : string) (l : list obj) (i : nat) (t : obj) :
  findIndex id l = Some i → l !! i = Some t → has_id id t = true.
Proof.
  intros Hf Hl. apply findIndex_Some in Hf as (u & Hu & Hid & _). congruence.
Qed.

(** X6.  Claims are last-writer-wins: a second claim on a task overwrites
    the first one.  The task answered carries the helper name and the time
    of the second claim, and takes the place of the original in the
    collection. *)
Theorem claim_overwrites (e1 e2 : env) (st : state) (id : string)
    (b1 b2 : obj) :
  stored id (tasks st) →
  ∃ (i : nat) (t t' : obj),
    findIndex id (tasks st) = Some i ∧ tasks st !! i = Some t
    ∧ handle e2 (next st (e1, ClaimTask id b1)) (ClaimTask id b2)
      = (Response 200 (PObj t'),
         State (<[ i := t' ]> (tasks st)) (visits st) (helpers st)
               (config st),
         [SaveTasks (<[ i := t' ]> (tasks st));
          Emit "tasks:update" (<[ i := t' ]> (tasks st))])
    ∧ get t' "status" = VStr "reserved"
    ∧ get t' "claimedBy" = get b2 "helperName"
    ∧ get t' "claimedAt" = VStr (now e2).
Proof.
  intros Hex. destruct (stored_found _ _ Hex) as (i & t & Hf & Hl & Ht).
  exists i, t. eexists. split; [done|]. split; [done|].
  unfold next. cbn [fst snd handle]. unfold claim_task at 2.
  rewrite (with_task_found _ _ _ i t) by done.
  unfold store_task at 1. cbn [fst snd].
  edestruct (found_after_insert id (tasks st) i t) as [Hf' Hl']; [done..| |].
  2: { unfold claim_task. erewrite with_task_found; [|exact Hf'|exact Hl'].
       unfold store_task. cbn [tasks visits helpers config].
       rewrite list_insert_insert_eq.
       split; [reflexivity|]. repeat split; by read_props. }
  by rewrite !has_id_insert.
Qed.

Lemma claim_overwrites_witness :
  ∃ (i : nat) (t t' : obj),
    findIndex "7d1f" (tasks one_task) = Some i ∧ tasks one_task !! i = Some t
    ∧ handle at_11 (next one_task (at_10, ClaimTask "7d1f" sam))
             (ClaimTask "7d1f" lee)
      = (Response 200 (PObj t'),
         State (<[ i := t' ]> (tasks one_task)) (visits one_task)
               (helpers one_task) (config one_task),
         [SaveTasks (<[ i := t' ]> (tasks one_task));
          Emit "tasks:update" (<[ i := t' ]> (tasks one_task))])
    ∧ get t' "status" = VStr "reserved"
    ∧ get t' "claimedBy" = get lee "helperName"
    ∧ get t' "claimedAt" = VStr (now at_11).
Proof.
  apply (claim_overwrites at_10 at_11 one_task "7d1f" sam lee).
  left. vm_compute. reflexivity.
Defined.

(** X7.  Completing and then unclaiming a task gives a [waiting] task
    without claim fields that still carries the [completedAt] of the
    completion: [unclaim] does not clear it. *)
Theorem unclaim_keeps_completedAt (e1 e2 : env) (st : state) (id : string) :
  stored id (tasks st) →
  ∃ (i : nat) (t' : obj),
    findIndex id (tasks st) = Some i
    ∧ handle e2 (next st (e1, CompleteTask id)) (UnclaimTask id)
      = (Response 200 (PObj t'),
         State (<[ i := t' ]> (tasks st)) (visits st) (helpers st)
               (config st),
         [SaveTasks (<[ i := t' ]> (tasks st));
          Emit "tasks:update" (<[ i := t' ]> (tasks st))])
    ∧ get t' "status" = VStr "waiting"
    ∧ get t' "claimedBy" = VNull
    ∧ get t' "claimedAt" = VNull
    ∧ get t' "completedAt" = VStr (now e1).
Proof.
  intros Hex. destruct (stored_found _ _ Hex) as (i & t & Hf & Hl & Ht).
  exists i. eexists. split; [done|].
  unfold next. cbn [fst snd handle]. unfold complete_task.
  rewrite (with_task_found _ _ _ i t) by done.
  unfold store_task at 1. cbn [fst snd].
  edestruct (found_after_insert id (tasks st) i t) as [Hf' Hl']; [done..| |].
  2: { unfold unclaim_task. erewrite with_task_found; [|exact Hf'|exact Hl'].
       unfold store_task. cbn [tasks visits helpers config].
       rewrite list_insert_insert_eq.
       split; [reflexivity|]. repeat split; by read_props. }
  by rewrite !has_id_insert.
Qed.

Lemma unclaim_keeps_completedAt_witness :
  ∃ (i : nat) (t' : obj),
    findIndex "7d1f" (tasks one_task) = Some i
    ∧ handle at_11 (next one_task (at_10, CompleteTask "7d1f"))
             (UnclaimTask "7d1f")
      = (Response 200 (PObj t'),
         State (<[ i := t' ]> (tasks one_task)) (visits one_task)
               (helpers one_task) (config one_task),
         [SaveTasks (<[ i := t' ]> (tasks one_task));
          Emit "tasks:update" (<[ i := t' ]> (tasks one_task))])
    ∧ get t' "status" = VStr "waiting"
    ∧ get t' "claimedBy" = VNull
    ∧ get t' "claimedAt" = VNull
    ∧ get t' "completedAt" = VStr (now at_10).
Proof.
  apply (unclaim_keeps_completedAt at_10 at_11 one_task "7d1f").
  left. vm_compute. reflexivity.
Defined.

Lemma book_free (e : env) (st : state) (id : string) (b : obj)
    (i : nat) (v : obj) :
  findIndex id (visits st) = Some i → visits st !! i = Some v →
  truthy (get v "bookedBy") = false →
  handle e st (BookVisit id b)
  = store_visit st i (<[ "bookedAt" := VStr (now e) ]>
                      (<[ "bookedBy" := get b "helperName" ]> v)).
Proof.
  intros Hf Hl Hfree. cbn [handle]. unfold book_visit.
  by rewrite (with_visit_found _ _ _ i v), Hfree.
Qed.

Lemma book_taken (e : env) (st : state) (id : string) (b : obj)
    (i : nat) (v : obj) :
  findIndex id (visits st) = Some i → visits st !! i = Some v →
  truthy (get v "bookedBy") = true →
  handle e st (BookVisit id b)
  = (Response 409 (PError "Already booked"), st, []).
Proof.
  intros Hf Hl Htaken. cbn [handle]. unfold book_visit.
  by rewrite (with_visit_found _ _ _ i v), Htaken.
Qed.

(** X8.  A booking holds the slot exactly when its helper name is truthy.
    After a booking of a free visit, a second booking is refused with 409
    (and changes nothing) when the first helper name was truthy; when it
    was falsy (absent, [null], the empty string) the second booking goes
    through and its helper name replaces the first. *)
Theorem booking_holds_when_named (e1 e2 : env) (st : state) (id : string)
    (b1 b2 : obj) (i : nat) (v : obj) :
  findIndex id (visits st) = Some i → visits st !! i = Some v →
  truthy (get v "bookedBy") = false →
  (truthy (get b1 "helperName") = true →
     handle e2 (next st (e1, BookVisit id b1)) (BookVisit id b2)
     = (Response 409 (PError "Already booked"),
        next st (e1, BookVisit id b1), [])
     ∧ (λ u, get u "bookedBy") <$> visits (next st (e1, BookVisit id b1)) !! i
       = Some (get b1 "helperName"))
  ∧ (truthy (get b1 "helperName") = false →
     ∃ v' : obj,
       handle e2 (next st (e1, BookVisit id b1)) (BookVisit id b2)
       = (Response 200 (PObj v'),
          State (tasks st) (<[ i := v' ]> (visits st)) (helpers st)
                (config st),
          [SaveVisits (<[ i := v' ]> (visits st));
           Emit "visits:update" (<[ i := v' ]> (visits st))])
       ∧ get v' "bookedBy" = get b2 "helperName"
       ∧ get v' "bookedAt" = VStr (now e2)).
Proof.
  intros Hf Hl Hfree.
  unfold next. cbn [fst snd]. rewrite (book_free e1 st id b1 i v) by done.
  unfold store_visit at 1 2 3 4. cbn [fst snd].
  set (v1 := <[ "bookedAt" := VStr (now e1) ]>
             (<[ "bookedBy" := get b1 "helperName" ]> v)).
  set (st1 := State (tasks st) (<[ i := v1 ]> (visits st)) (helpers st)
                    (config st)).
  assert (has_id id v1 = true) as Hid.
  { unfold v1. rewrite !has_id_insert by done. by eapply found_has_id. }
  destruct (found_after_insert id (visits st) i v v1 Hf Hl Hid) as [Hf' Hl'].
  assert (get v1 "bookedBy" = get b1 "helperName") as Hby
    by (unfold v1; by read_props).
  split; intros Hname.
  - split.
    + apply (book_taken e2 st1 id b2 i v1); [done..|]. by rewrite Hby.
    + cbn [visits st1]. by rewrite Hl', <-Hby.
  - rewrite (book_free e2 st1 id b2 i v1); [|done..|by rewrite Hby].
    unfold store_visit. cbn [st1 tasks visits helpers config].
    rewrite list_insert_insert_eq.
    eexists. split; [reflexivity|]. split; by read_props.
Qed.

Lemma booking_holds_when_named_witness :
  (handle at_11 (next one_visit (at_10, BookVisit "7d1f" kim))
          (BookVisit "7d1f" lee)
   = (Response 409 (PError "Already booked"),
      next one_visit (at_10, BookVisit "7d1f" kim), [])
   ∧ (λ u, get u "bookedBy")
       <$> visits (next one_visit (at_10, BookVisit "7d1f" kim)) !! 0
     = Some (get kim "helperName"))
  ∧ ∃ v' : obj,
      handle at_11 (next one_visit (at_10, BookVisit "7d1f" ∅))
             (BookVisit "7d1f" lee)
      = (Response 200 (PObj v'),
         State (tasks one_visit) (<[ 0 := v' ]> (visits one_visit))
               (helpers one_visit) (config one_visit),
         [SaveVisits (<[ 0 := v' ]> (visits one_visit));
          Emit "visits:update" (<[ 0 := v' ]> (visits one_visit))])
      ∧ get v' "bookedBy" = get lee "helperName"
      ∧ get v' "bookedAt" = VStr (now at_11).
Proof.
  split.
  - apply (proj1 (booking_holds_when_named at_10 at_11 one_visit "7d1f"
                    kim lee 0 (new_visit at_9 slot)
                    eq_refl eq_refl eq_refl)).
    reflexivity.
  - apply (proj2 (booking_holds_when_named at_10 at_11 one_visit "7d1f"
                    ∅ lee 0 (new_visit at_9 slot)
                    eq_refl eq_refl eq_refl)).
    reflexivity.
Defined.

(** X9.  Unbooking frees the slot for anyone: after [unbook] on a stored
    visit, whoever had it, the next booking goes through and the visit
    carries the new helper name. *)
Theorem unbook_then_book (e1 e2 : env) (st : state) (id : string) (b : obj) :
  stored id (visits st) →
  ∃ (i : nat) (v' : obj),
    findIndex id (visits st) = Some i
    ∧ handle e2 (next st (e1, UnbookVisit id)) (BookVisit id b)
      = (Response 200 (PObj v'),
         State (tasks st) (<[ i := v' ]> (visits st)) (helpers st)
               (config st),
         [SaveVisits (<[ i := v' ]> (visits st));
          Emit "visits:update" (<[ i := v' ]> (visits st))])
    ∧ get v' "bookedBy" = get b "helperName"
    ∧ get v' "bookedAt" = VStr (now e2).
Proof.
  intros Hex. destruct (stored_found _ _ Hex) as (i & v & Hf & Hl & Hv).
  exists i. unfold next. cbn [fst snd handle]. unfold unbook_visit.
  rewrite (with_visit_found _ _ _ i v) by done.
  unfold store_visit. cbn [fst snd].
  set (v1 := <[ "bookedAt" := VNull ]> (<[ "bookedBy" := VNull ]> v)).
  set (st1 := State (tasks st) (<[ i := v1 ]> (visits st)) (helpers st)
                    (config st)).
  assert (has_id id v1 = true) as Hid.
  { unfold v1. by rewrite !has_id_insert. }
  destruct (found_after_insert id (visits st) i v v1 Hf Hl Hid) as [Hf' Hl'].
  change (book_visit e2 st1 id b) with (handle e2 st1 (BookVisit id b)).
  rewrite (book_free e2 st1 id b i v1); [|done..|by unfold v1; read_props].
  unfold store_visit. cbn [st1 tasks visits helpers config].
  rewrite list_insert_insert_eq.
  eexists. split; [done|]. split; [reflexivity|]. split; by read_props.
Qed.

Lemma unbook_then_book_witness :
  ∃ (i : nat) (v' : obj),
    findIndex "7d1f" (visits kim_visit) = Some i
    ∧ handle at_12 (next kim_visit (at_11, UnbookVisit "7d1f"))
             (BookVisit "7d1f" lee)
      = (Response 200 (PObj v'),
         State (tasks kim_visit) (<[ i := v' ]> (visits kim_visit))
               (helpers kim_visit) (config kim_visit),
         [SaveVisits (<[ i := v' ]> (visits kim_visit));
          Emit "visits:update" (<[ i := v' ]> (visits kim_visit))])
    ∧ get v' "bookedBy" = get lee "helperName"
    ∧ get v' "bookedAt" = VStr (now at_12).
Proof.
  apply (unbook_then_book at_11 at_12 kim_visit "7d1f" lee).
  left. vm_compute. reflexivity.
Defined.

(** ** Updating a task *)

(** X10.  [PUT /api/tasks/:id] answers 404 and does nothing when no task
    has the identifier.  Otherwise, for a body without the key
    [__proto__], every property of the body is written on the task found,
    whatever it is ([status] and [id] included), the answer is the task
    after the write, and an empty body changes no field of it, though the
    collection is saved and broadcast all the same. *)
Theorem update_overwrites (e : env) (st : state) (id : string) (b : obj) :
  (findIndex id (tasks st) = None →
     handle e st (PutTask id b)
     = (Response 404 (PError "Not found"), st, []))
  ∧ (b !! "__proto__" = None →
     ∀ (i : nat) (t : obj),
       findIndex id (tasks st) = Some i → tasks st !! i = Some t →
       handle e st (PutTask id b)
       = (Response 200 (PObj (b ∪ t)),
          State (<[ i := b ∪ t ]> (tasks st)) (visits st) (helpers st)
                (config st),
          [SaveTasks (<[ i := b ∪ t ]> (tasks st));
           Emit "tasks:update" (<[ i := b ∪ t ]> (tasks st))])
       ∧ (∀ k v, b !! k = Some v → get (b ∪ t) k = v)
       ∧ (b = ∅ → <[ i := b ∪ t ]> (tasks st) = tasks st)).
Proof.
  split.
  - intros Hno. cbn [handle]. unfold put_task. by rewrite with_task_missing.
  - intros _ i t Hf Hl. split; [|split].
    + cbn [handle]. unfold put_task. by rewrite (with_task_found _ _ _ i t).
    + intros k v Hk. unfold get. by rewrite (lookup_union_Some_l _ _ _ _ Hk).
    + intros ->. rewrite (left_id_L ∅ (∪)). by apply list_insert_id.
Qed.

Lemma update_overwrites_witness :
  handle at_10 initial (PutTask "7d1f" milk)
  = (Response 404 (PError "Not found"), initial, [])
  ∧ (handle at_10 one_task (PutTask "7d1f" mark_done)
     = (Response 200 (PObj (mark_done
                            ∪ new_task at_9 milk)),
        State (<[ 0 := mark_done ∪ new_task at_9 milk ]>
                 (tasks one_task))
              (visits one_task) (helpers one_task) (config one_task),
        [SaveTasks
           (<[ 0 := mark_done ∪ new_task at_9 milk ]>
              (tasks one_task));
         Emit "tasks:update"
           (<[ 0 := mark_done ∪ new_task at_9 milk ]>
              (tasks one_task))])
     ∧ get (mark_done ∪ new_task at_9 milk) "status"
       = VStr "done").
Proof.
  split.
  - apply (proj1 (update_overwrites at_10 initial "7d1f" milk)). reflexivity.
  - destruct (proj2 (update_overwrites at_10 one_task "7d1f"
                       mark_done)
                    eq_refl 0 (new_task at_9 milk) eq_refl eq_refl)
      as (Hh & Hw & _).
    split; [exact Hh|]. apply Hw. reflexivity.
Defined.

(** ** What stays in place *)

(** X11.  Only creation and deletion change which tasks (visits) are
    stored and in which order: every other request, an update without
    [id] included, leaves the list of task identifiers, and every
    request but creation and deletion of visits the list of visit
    identifiers, exactly as it was. *)
Theorem ids_stay (e : env) (st : state) (r : request) :
  (resizes_tasks r = false → keeps_id r →
     task_ids (next st (e, r)) = task_ids st)
  ∧ (resizes_visits r = false → visit_ids (next st (e, r)) = visit_ids st).
Proof.
  split.
  - intros Hr Hk. unfold task_ids at 1.
    apply (tasks_step (λ l, (λ t, get t "id") <$> l = task_ids st));
      try done.
    + by intros b ->.
    + by intros id ->.
    + intros id b i t -> _ Hl. cbn in Hk.
      apply (task_ids_insert st i t); [done|]. by apply get_union_r.
    + intros id b i t -> _ Hl.
      apply (task_ids_insert st i t); [done|]. by read_props.
    + intros id i t -> _ Hl.
      apply (task_ids_insert st i t); [done|]. by read_props.
    + intros id i t -> _ Hl.
      apply (task_ids_insert st i t); [done|]. by read_props.
  - intros Hr. unfold visit_ids at 1.
    apply (visits_step (λ l, (λ v, get v "id") <$> l = visit_ids st));
      try done.
    + by intros b ->.
    + by intros id ->.
    + intros id b i v -> _ Hl _. unfold visit_ids.
      rewrite list_fmap_insert. read_props.
      apply list_insert_id. by rewrite list_lookup_fmap, Hl.
    + intros id i v -> _ Hl. unfold visit_ids.
      rewrite list_fmap_insert. read_props.
      apply list_insert_id. by rewrite list_lookup_fmap, Hl.
Qed.

Lemma ids_stay_witness :
  task_ids (next done_task (at_12, ClaimTask "7d1f" lee)) = task_ids done_task
  ∧ visit_ids (next kim_visit (at_12, UnbookVisit "7d1f"))
    = visit_ids kim_visit.
Proof.
  split.
  - apply (proj1 (ids_stay at_12 done_task (ClaimTask "7d1f" lee)));
      reflexivity.
  - apply (proj2 (ids_stay at_12 kim_visit (UnbookVisit "7d1f"))).
    reflexivity.
Defined.

(** X12.  As long as no update carries a [status], the status of every
    stored task is one of [waiting], [reserved] and [done]. *)
Theorem status_is_known (tr : list (env * request)) :
  Forall (λ x, keeps_status x.2) tr →
  Forall (λ t, known_status t = true) (tasks (run initial tr)).
Proof.
  assert (∀ st, Forall (λ x, keeps_status x.2) tr →
            Forall (λ t, known_status t = true) (tasks st) →
            Forall (λ t, known_status t = true) (tasks (run st tr))) as Hgen.
  { induction tr as [|[e r] tr IH]; intros st Htr Hst; [done|].
    apply Forall_cons_1 in Htr as [Hr Htr]. rewrite run_cons.
    apply IH; [done|]. apply tasks_step; [done|..].
    - intros b _. by apply Forall_cons.
    - intros id _. by apply Forall_remove_id.
    - intros id b i t -> _ Hl. cbn in Hr. apply Forall_insert; [done|].
      unfold known_status. rewrite get_union_r by done.
      by apply (Forall_lookup_1 _ _ _ _ Hst Hl).
    - intros id b i t _ _ _. apply Forall_insert; [done|].
      unfold known_status. by read_props.
    - intros id i t _ _ _. apply Forall_insert; [done|].
      unfold known_status. by read_props.
    - intros id i t _ _ _. apply Forall_insert; [done|].
      unfold known_status. by read_props. }
  intros Htr. by apply Hgen.
Qed.

Lemma status_is_known_witness :
  Forall (λ t, known_status t = true)
    (tasks (run initial [(at_9, PostTask milk);
                         (at_10, ClaimTask "7d1f" ∅);
                         (at_11, PutTask "7d1f" milk);
                         (at_12, CompleteTask "7d1f")])).
Proof.
  apply (status_is_known
           [(at_9, PostTask milk); (at_10, ClaimTask "7d1f" ∅);
            (at_11, PutTask "7d1f" milk); (at_12, CompleteTask "7d1f")]).
  repeat constructor.
Defined.

(** ** Releasing twice *)

Lemma release_twice (k1 k2 k3 : string) (v1 v2 v3 : value) (o : obj) :
  <[ k1 := v1 ]> (<[ k2 := v2 ]> (<[ k3 := v3 ]>
    (<[ k1 := v1 ]> (<[ k2 := v2 ]> (<[ k3 := v3 ]> o)))))
  = <[ k1 := v1 ]> (<[ k2 := v2 ]> (<[ k3 := v3 ]> o)).
Proof.
  apply map_eq. intros k. rewrite !lookup_insert.
  repeat case_decide; done.
Qed.

(** X13.  [unclaim] and [unbook] are idempotent: a second one right after
    the first leaves the store as the first left it, whether or not the
    identifier is stored. *)
Theorem release_idempotent (e e' : env) (st : state) (id : string) :
  next (next st (e, UnclaimTask id)) (e', UnclaimTask id)
  = next st (e, UnclaimTask id)
  ∧ next (next st (e, UnbookVisit id)) (e', UnbookVisit id)
    = next st (e, UnbookVisit id).
Proof.
  unfold next. cbn [fst snd handle]. split.
  - destruct (findIndex id (tasks st)) as [i|] eqn:Hf.
    + pose proof Hf as Hf0.
      apply findIndex_Some in Hf0 as (t & Hl & Ht & _).
      set (t1 := <[ "claimedAt" := VNull ]> (<[ "claimedBy" := VNull ]>
                 (<[ "status" := VStr "waiting" ]> t))).
      assert (unclaim_task st id = store_task st i t1) as ->.
      { unfold unclaim_task. by rewrite (with_task_found _ _ _ i t). }
      assert (has_id id t1 = true) as Hid
        by (unfold t1; by rewrite !has_id_insert).
      destruct (found_after_insert id (tasks st) i t t1 Hf Hl Hid)
        as [Hf' Hl'].
      unfold store_task. cbn [fst snd].
      unfold unclaim_task. erewrite with_task_found; [|exact Hf'|exact Hl'].
      unfold store_task. cbn [fst snd tasks visits helpers config].
      unfold t1. by rewrite list_insert_insert_eq, release_twice.
    + assert (unclaim_task st id = (not_found, st, [])) as ->.
      { unfold unclaim_task. by rewrite with_task_missing. }
      cbn [fst snd]. unfold unclaim_task. by rewrite with_task_missing.
  - destruct (findIndex id (visits st)) as [i|] eqn:Hf.
    + pose proof Hf as Hf0.
      apply findIndex_Some in Hf0 as (v & Hl & Hv & _).
      set (v1 := <[ "bookedAt" := VNull ]> (<[ "bookedBy" := VNull ]> v)).
      assert (unbook_visit st id = store_visit st i v1) as ->.
      { unfold unbook_visit. by rewrite (with_visit_found _ _ _ i v). }
      assert (has_id id v1 = true) as Hid
        by (unfold v1; by rewrite !has_id_insert).
      destruct (found_after_insert id (visits st) i v v1 Hf Hl Hid)
        as [Hf' Hl'].
      unfold store_visit. cbn [fst snd].
      unfold unbook_visit. erewrite with_visit_found; [|exact Hf'|exact Hl'].
      unfold store_visit. cbn [fst snd tasks visits helpers config].
      rewrite list_insert_insert_eq.
      replace (<[ "bookedAt" := VNull ]> (<[ "bookedBy" := VNull ]> v1))
        with v1; [done|].
      unfold v1. apply map_eq. intros k. rewrite !lookup_insert.
      repeat case_decide; done.
    + assert (unbook_visit st id = (not_found, st, [])) as ->.
      { unfold unbook_visit. by rewrite with_visit_missing. }
      cbn [fst snd]. unfold unbook_visit. by rewrite with_visit_missing.
Qed.

(** ** The helper roster *)

(** The helper collection after a request: it grows only by a
    registration of a new trimmed name. *)
Lemma helpers_step (P : list obj → Prop) (e : env) (st : state)
    (r : request) :
  P (helpers st) →
  (∀ b s, r = PostHelper b → get b "name" = VStr s → trim s ≠ "" →
     find_helper (trim s) (helpers st) = None →
     P (helpers st ++ [<[ "joinedAt" := VStr (now e) ]>
                       (<[ "name" := VStr (trim s) ]>
                       (<[ "id" := VStr (uuid e) ]> ∅))])%list) →
  P (helpers (next st (e, r))).
Proof.
  intros Hst Hnew. unfold next. cbn [fst snd].
  destruct r; cbn [handle]; try exact Hst.
  - unfold put_task, with_task. repeat case_match; exact Hst.
  - unfold claim_task, with_task. repeat case_match; exact Hst.
  - unfold unclaim_task, with_task. repeat case_match; exact Hst.
  - unfold complete_task, with_task. repeat case_match; exact Hst.
  - unfold book_visit, with_visit. repeat case_match; exact Hst.
  - unfold unbook_visit, with_visit. repeat case_match; exact Hst.
  - unfold post_helper.
    destruct (get b "name") as [| |c|x|s| |] eqn:Hb; cbn [truthy];
      try (repeat case_match; exact Hst).
    destruct (String.eqb s "" || String.eqb (trim s) "") eqn:Hblank;
      [exact Hst|].
    apply orb_false_elim in Hblank as [_ Htrim].
    apply String.eqb_neq in Htrim.
    destruct (find_helper (trim s) (helpers st)) as [h|] eqn:Hfind;
      [exact Hst|].
    by eapply Hnew.
  - unfold set_pin. by case_match.
Qed.

Lemma find_helper_None (n : string) (l : list obj) :
  find_helper n l = None → VStr n ∉ (λ h, get h "name") <$> l.
Proof.
  unfold find_helper. intros Hno Hin. apply fmap_None in Hno.
  apply list_elem_of_fmap in Hin as (h & Hh & Hin).
  rewrite list_find_None, Forall_forall in Hno.
  apply (Hno h Hin). rewrite <-Hh. cbn. apply String.eqb_refl.
Qed.

(** X14.  After any sequence of requests from the empty store, the names
    of the stored helpers are pairwise different, and each of them is a
    non-empty string that came out of [trim]. *)
Theorem helper_names_unique (tr : list (env * request)) :
  NoDup (helper_names (run initial tr))
  ∧ Forall (λ n, ∃ s, n = VStr (trim s) ∧ trim s ≠ "")
      (helper_names (run initial tr)).
Proof.
  assert (∀ st,
    NoDup (helper_names st)
    ∧ Forall (λ n, ∃ s, n = VStr (trim s) ∧ trim s ≠ "") (helper_names st) →
    NoDup (helper_names (run st tr))
    ∧ Forall (λ n, ∃ s, n = VStr (trim s) ∧ trim s ≠ "")
        (helper_names (run st tr))) as Hgen.
  { induction tr as [|[e r] tr IH]; intros st Hst; [done|].
    rewrite run_cons. apply IH. unfold helper_names.
    apply (helpers_step
             (λ l, NoDup ((λ h, get h "name") <$> l)
                   ∧ Forall (λ n, ∃ s, n = VStr (trim s) ∧ trim s ≠ "")
                       ((λ h, get h "name") <$> l))); [done|].
    intros b s _ _ Htrim Hfind. destruct Hst as [Hnd Hall].
    rewrite fmap_app. cbn [fmap list_fmap]. read_props. split.
    - apply NoDup_app. split; [done|]. split; [|apply NoDup_singleton].
      intros n Hn ->%list_elem_of_singleton.
      by apply (find_helper_None _ _ Hfind).
    - apply Forall_app. split; [done|]. apply Forall_singleton. by exists s. }
  apply Hgen. split; [constructor|constructor].
Qed.

(** X15.  Helpers are told apart by their trimmed name: two names with
    the same non-blank [trim] get the same record, and the second
    registration changes nothing and neither saves nor broadcasts. *)
Theorem register_same_trim (e1 e2 : env) (st : state) (b1 b2 : obj)
    (s1 s2 : string) :
  get b1 "name" = VStr s1 → get b2 "name" = VStr s2 →
  trim s1 = trim s2 → trim s1 ≠ "" →
  ∃ h : obj,
    (handle e1 st (PostHelper b1)).1.1 = Response 200 (PObj h)
    ∧ get h "name" = VStr (trim s1)
    ∧ handle e2 (next st (e1, PostHelper b1)) (PostHelper b2)
      = (Response 200 (PObj h), next st (e1, PostHelper b1), []).
Proof.
  intros Hb1 Hb2 Heq Hs.
  assert (∀ s, trim s ≠ "" →
            String.eqb s "" || String.eqb (trim s) "" = false) as Hblank.
  { intros s Hne. apply orb_false_intro; apply String.eqb_neq; [|done].
    intros ->. by apply Hne. }
  unfold next. cbn [fst snd handle]. unfold post_helper.
  rewrite Hb1, Hb2, <-Heq, (Hblank s1 Hs).
  assert (String.eqb s2 "" || String.eqb (trim s1) "" = false) as ->.
  { rewrite Heq. apply Hblank. by rewrite <-Heq. }
  destruct (find_helper (trim s1) (helpers st)) as [h|] eqn:Hfind.
  - exists h. split; [done|]. cbn [fst snd]. rewrite Hfind. split; [|done].
    unfold find_helper in Hfind.
    destruct (list_find _ (helpers st)) as [[j h']|] eqn:Hlf; [|done].
    injection Hfind as ->. apply list_find_Some in Hlf as (_ & Hn & _).
    destruct (get h "name") as [| | | |n| |]; try done.
    cbn in Hn. by apply String.eqb_eq in Hn as ->.
  - eexists. split; [reflexivity|]. split; [by read_props|].
    cbn [fst snd helpers].
    erewrite find_helper_new; [reflexivity|done|by read_props].
Qed.

Lemma register_same_trim_witness :
  ∃ h : obj,
    (handle at_9 initial (PostHelper sam_name)).1.1 = Response 200 (PObj h)
    ∧ get h "name" = VStr (trim "  Sam ")
    ∧ handle at_10 (next initial (at_9, PostHelper sam_name))
             (PostHelper sam_again)
      = (Response 200 (PObj h),
         next initial (at_9, PostHelper sam_name), []).
Proof.
  apply (register_same_trim at_9 at_10 initial sam_name sam_again
           "  Sam " "Sam"); try reflexivity.
  vm_compute. discriminate.
Defined.

(** X16.  What [POST /api/helpers] refuses.  A name that is falsy
    (absent, [null], [false], 0, the empty string) or a string that is
    blank after trimming is answered 400; a truthy name that is not a
    string has no [trim] and the request ends in a 500.  In each case the
    store is untouched and nothing is saved or broadcast. *)
Theorem register_refuses (e : env) (st : state) (b : obj) :
  (truthy (get b "name") = false →
     handle e st (PostHelper b)
     = (Response 400 (PError "Name required"), st, []))
  ∧ (∀ s, get b "name" = VStr s → trim s = "" →
       handle e st (PostHelper b)
       = (Response 400 (PError "Name required"), st, []))
  ∧ (truthy (get b "name") = true → (∀ s, get b "name" ≠ VStr s) →
       handle e st (PostHelper b)
       = (Response 500 (PException "TypeError"), st, [])).
Proof.
  cbn [handle]. unfold post_helper. repeat split.
  - destruct (get b "name") as [| |c|x|s| |]; cbn [truthy]; try done.
    + by intros ->.
    + by intros ->.
    + intros Hs. apply negb_false_iff in Hs. by rewrite Hs.
  - intros s -> ->. by rewrite orb_true_r.
  - destruct (get b "name") as [| |c|x|s| |]; cbn [truthy]; try done.
    + by intros ->.
    + by intros ->.
    + intros _ Hs. by destruct (Hs s).
Qed.

Lemma register_refuses_witness :
  handle at_9 initial (PostHelper ∅)
  = (Response 400 (PError "Name required"), initial, [])
  ∧ handle at_9 initial (PostHelper blank_name)
    = (Response 400 (PError "Name required"), initial, [])
  ∧ handle at_9 initial (PostHelper {[ "name" := VBool true ]})
    = (Response 500 (PException "TypeError"), initial, []).
Proof.
  split; [|split].
  - apply (proj1 (register_refuses at_9 initial ∅)). reflexivity.
  - apply (proj1 (proj2 (register_refuses at_9 initial blank_name)) "   ");
      reflexivity.
  - apply (proj2 (proj2 (register_refuses at_9 initial
                           {[ "name" := VBool true ]}))); [reflexivity|].
    intros s. vm_compute. discriminate.
Defined.

(** ** The order of the collections *)

Lemma drawn_visits_cons (x : env * request) (tr : list (env * request)) :
  drawn_visits (x :: tr) = (drawn_visits [x] ++ drawn_visits tr)%list.
Proof. unfold drawn_visits. cbn. by case_match. Qed.

Lemma NoDup_VStr (l : list string) : NoDup l → NoDup (VStr <$> l).
Proof. apply NoDup_fmap_2_strong. by intros x y _ _ [= ->]. Qed.

Lemma visit_ids_run (tr : list (env * request)) (st : state)
    (before : list value) :
  visit_ids st `sublist_of` before →
  visit_ids (run st tr)
    `sublist_of` (before ++ (VStr <$> drawn_visits tr))%list.
Proof.
  revert st before.
  induction tr as [|[e r] tr IH]; intros st before Hst.
  - cbn. by rewrite (right_id_L [] (++)).
  - rewrite run_cons, drawn_visits_cons, fmap_app, (assoc_L (++)).
    apply IH. unfold visit_ids.
    apply (visits_step
             (λ l, (λ v, get v "id") <$> l
                     `sublist_of` (before ++ (VStr <$> drawn_visits [(e, r)]))%list)).
    + by apply sublist_inserts_r.
    + intros b ->. rewrite fmap_app. by apply sublist_app.
    + intros id _. apply sublist_inserts_r.
      etrans; [apply task_ids_remove|done].
    + intros id b i v _ _ Hl _. apply sublist_inserts_r.
      rewrite list_fmap_insert. read_props.
      rewrite list_insert_id; [done|]. by rewrite list_lookup_fmap, Hl.
    + intros id i v _ _ Hl. apply sublist_inserts_r.
      rewrite list_fmap_insert. read_props.
      rewrite list_insert_id; [done|]. by rewrite list_lookup_fmap, Hl.
Qed.

(** X17.  Visits are kept in the order of their creation: after any
    sequence of requests from the empty store, the identifiers of the
    stored visits are, in order, among those [uuidv4()] returned to the
    creations.  So with [uuidv4()] never returning one identifier twice
    no two stored visits have the same identifier, whatever the
    requests. *)
Theorem visits_in_creation_order (tr : list (env * request)) :
  visit_ids (run initial tr) `sublist_of` (VStr <$> drawn_visits tr)
  ∧ (NoDup (drawn_visits tr) → NoDup (visit_ids (run initial tr))).
Proof.
  assert (visit_ids (run initial tr) `sublist_of` (VStr <$> drawn_visits tr))
    as Hsub by (by apply (visit_ids_run tr initial [])).
  split; [done|]. intros Hnd.
  eapply sublist_NoDup; [|exact Hsub]. by apply NoDup_VStr.
Qed.

Lemma visits_in_creation_order_witness :
  NoDup (visit_ids (run initial [(at_9, PostVisit slot);
                                 (at_10, PostVisit slot);
                                 (at_11, BookVisit "3c2a" kim);
                                 (at_12, DeleteVisit "7d1f")])).
Proof.
  apply (proj2 (visits_in_creation_order
                  [(at_9, PostVisit slot); (at_10, PostVisit slot);
                   (at_11, BookVisit "3c2a" kim);
                   (at_12, DeleteVisit "7d1f")])).
  vm_compute. apply NoDup_cons. split.
  - intros [H|H]%elem_of_cons; [discriminate|by apply elem_of_nil in H].
  - apply NoDup_singleton.
Defined.

Lemma task_ids_run (tr : list (env * request)) (st : state)
    (before : list value) :
  Forall (λ x, keeps_id x.2) tr →
  task_ids st `sublist_of` before →
  task_ids (run st tr)
    `sublist_of` (reverse (VStr <$> drawn tr) ++ before)%list.
Proof.
  revert st before.
  induction tr as [|[e r] tr IH]; intros st before Htr Hst; [done|].
  apply Forall_cons_1 in Htr as [Hr Htr].
  rewrite run_cons, drawn_cons, fmap_app, reverse_app, <-(assoc_L (++)).
  apply IH; [done|]. unfold task_ids.
  apply (tasks_step
           (λ l, (λ t, get t "id") <$> l
                   `sublist_of` (reverse (VStr <$> drawn [(e, r)]) ++ before)%list)).
  - by apply sublist_inserts_l.
  - intros b ->. by apply sublist_skip.
  - intros id _. apply sublist_inserts_l.
    etrans; [apply task_ids_remove|done].
  - intros id b i t -> _ Hl. cbn in Hr. apply sublist_inserts_l.
    rewrite (task_ids_insert st i t); [done..|]. by apply get_union_r.
  - intros id b i t _ _ Hl. apply sublist_inserts_l.
    rewrite (task_ids_insert st i t); [done..|]. by read_props.
  - intros id i t _ _ Hl. apply sublist_inserts_l.
    rewrite (task_ids_insert st i t); [done..|]. by read_props.
  - intros id i t _ _ Hl. apply sublist_inserts_l.
    rewrite (task_ids_insert st i t); [done..|]. by read_props.
Qed.

(** X18.  Tasks are kept newest first: after any sequence of requests
    from the empty store in which no update carries an [id], the
    identifiers of the stored tasks are, in order, among those
    [uuidv4()] returned to the creations, the latest creation first. *)
Theorem tasks_newest_first (tr : list (env * request)) :
  Forall (λ x, keeps_id x.2) tr →
  task_ids (run initial tr) `sublist_of` reverse (VStr <$> drawn tr).
Proof.
  intros Htr. rewrite <-(right_id_L [] (++) (reverse _)).
  by apply (task_ids_run tr initial []).
Qed.

Lemma tasks_newest_first_witness :
  task_ids (run initial [(at_9, PostTask milk); (at_10, PostTask milk);
                         (at_11, ClaimTask "7d1f" sam);
                         (at_12, PostTask milk)])
    `sublist_of` reverse (VStr <$> drawn [(at_9, PostTask milk);
                                          (at_10, PostTask milk);
                                          (at_11, ClaimTask "7d1f" sam);
                                          (at_12, PostTask milk)]).
Proof.
  apply (tasks_newest_first
           [(at_9, PostTask milk); (at_10, PostTask milk);
            (at_11, ClaimTask "7d1f" sam); (at_12, PostTask milk)]).
  repeat constructor.
Defined.

(** ** The PIN, continued *)

Lemma set_pin_next (e : env) (st : state) (b : obj) :
  strict_eq (get b "oldPin") (get (config st) "pin") = true →
  next st (e, SetPin b)
  = State (tasks st) (visits st) (helpers st)
          (<[ "pin" := get b "newPin" ]> (config st)).
Proof.
  intros Hold. unfold next. cbn [fst snd handle]. unfold set_pin.
  by rewrite Hold.
Qed.

(** X19.  After a [set-pin] that went through, [verify-pin] answers
    [ok: true] exactly to the values that are [===] to the [newPin] of
    the request, and the same [set-pin] request sent again is refused
    with 403 unless its [oldPin] is [===] to its [newPin]. *)
Theorem pin_replaced (e e' : env) (st : state) (b c : obj) :
  strict_eq (get b "oldPin") (get (config st) "pin") = true →
  handle e' (next st (e, SetPin b)) (VerifyPin c)
  = (Response 200 (POk (strict_eq (get c "pin") (get b "newPin"))),
     next st (e, SetPin b), [])
  ∧ (strict_eq (get b "oldPin") (get b "newPin") = false →
     handle e' (next st (e, SetPin b)) (SetPin b)
     = (Response 403 (PError "Wrong PIN"), next st (e, SetPin b), [])).
Proof.
  intros Hold. rewrite (set_pin_next e st b Hold). cbn [handle]. split.
  - unfold verify_pin. cbn [config]. by read_props.
  - intros Hne. unfold set_pin. cbn [config]. read_props. by rewrite Hne.
Qed.

Lemma pin_replaced_witness :
  handle at_10 (next initial (at_9, SetPin right_change))
         (VerifyPin {[ "pin" := VStr "0000" ]})
  = (Response 200
       (POk (strict_eq (get {[ "pin" := VStr "0000" ]} "pin")
                       (get right_change "newPin"))),
     next initial (at_9, SetPin right_change), [])
  ∧ handle at_10 (next initial (at_9, SetPin right_change))
           (SetPin right_change)
    = (Response 403 (PError "Wrong PIN"),
       next initial (at_9, SetPin right_change), []).
Proof.
  destruct (pin_replaced at_9 at_10 initial right_change
              {[ "pin" := VStr "0000" ]} eq_refl) as [Hv Hs].
  split; [exact Hv|]. apply Hs. reflexivity.
Defined.

(** X20.  A [set-pin] that goes through without a [newPin] stores
    [undefined] as the PIN: from then on every [verify-pin] without a
    [pin] is answered [ok: true], and every [verify-pin] with a [pin],
    which JSON cannot make [undefined], [ok: false]. *)
Theorem pin_unset (e e' : env) (st : state) (b c : obj) :
  strict_eq (get b "oldPin") (get (config st) "pin") = true →
  b !! "newPin" = None →
  (c !! "pin" = None →
     (handle e' (next st (e, SetPin b)) (VerifyPin c)).1.1
     = Response 200 (POk true))
  ∧ (∀ v, c !! "pin" = Some v → v ≠ VUndef →
       (handle e' (next st (e, SetPin b)) (VerifyPin c)).1.1
       = Response 200 (POk false)).
Proof.
  intros Hold Hnew. rewrite (set_pin_next e st b Hold). cbn [handle].
  unfold verify_pin. cbn [fst config]. read_props.
  assert (get b "newPin" = VUndef) as -> by (unfold get; by rewrite Hnew).
  split.
  - intros Hc. unfold get. by rewrite Hc.
  - intros v Hc Hv. unfold get. rewrite Hc. cbn [default]. by destruct v.
Qed.

Lemma pin_unset_witness :
  (handle at_10 (next initial (at_9, SetPin unset_change))
          (VerifyPin ∅)).1.1
  = Response 200 (POk true)
  ∧ (handle at_10 (next initial (at_9, SetPin unset_change))
            (VerifyPin try_0000)).1.1
    = Response 200 (POk false).
Proof.
  destruct (pin_unset at_9 at_10 initial unset_change ∅
              eq_refl eq_refl) as [Hyes _].
  destruct (pin_unset at_9 at_10 initial unset_change try_0000
              eq_refl eq_refl) as [_ Hno].
  split; [by apply Hyes|]. by apply (Hno (VStr "0000")).
Defined.

(** ** What is saved and broadcast *)

Lemma latest_app {A : Type} (sel : effect → option A) (l1 l2 : list effect) :
  latest sel (l1 ++ l2)
  = match latest sel l2 with Some y => Some y | None => latest sel l1 end.
Proof. unfold latest. by rewrite omap_app, last_app. Qed.

(** A part of the store that every handler leaves as its last effect of
    one kind says, or leaves alone, is after a run what the last such
    effect of the run says. *)
Lemma latest_run {A : Type} (sel : effect → option A) (part : state → A) :
  (∀ e st r,
     part (next st (e, r))
     = default (part st) (latest sel (handle e st r).2)) →
  ∀ tr st, part (run st tr) = default (part st) (latest sel (log st tr)).
Proof.
  intros Hstep tr. induction tr as [|[e r] tr IH]; intros st; [done|].
  rewrite run_cons, IH. cbn [log fst snd]. rewrite latest_app, Hstep.
  by destruct (latest sel (log (next st (e, r)) tr)).
Qed.

Ltac by_handler :=
  let e := fresh "e" in
  let st := fresh "st" in
  let r := fresh "r" in
  intros e st r; unfold next; cbn [fst snd];
  destruct r; cbn [handle];
  unfold get_tasks, post_task, put_task, delete_task, claim_task,
    unclaim_task, complete_task, get_visits, post_visit, book_visit,
    unbook_visit, delete_visit, get_helpers, post_helper, verify_pin,
    set_pin, with_task, with_visit, store_task, store_visit;
  repeat case_match; done.

(** X21.  Memory and disk agree.  After any sequence of requests, each
    of [tasks], [visits], [helpers] and [config] is the document of the
    last [saveJSON] of its file during the sequence, and is as at the
    start when its file was not saved. *)
Theorem saved_is_stored (tr : list (env * request)) (st : state) :
  tasks (run st tr) = default (tasks st) (latest saved_tasks (log st tr))
  ∧ visits (run st tr)
    = default (visits st) (latest saved_visits (log st tr))
  ∧ helpers (run st tr)
    = default (helpers st) (latest saved_helpers (log st tr))
  ∧ config (run st tr)
    = default (config st) (latest saved_config (log st tr)).
Proof.
  repeat split; apply latest_run; by_handler.
Qed.

(** X22.  Subscribers are up to date.  After any sequence of requests, a
    socket that connects is sent, on each of the three channels, the
    collection of the last broadcast on that channel during the sequence,
    or the collection of the start when there was none. *)
Theorem connection_snapshot (tr : list (env * request)) (st : state) :
  on_connection (run st tr)
  = [("tasks:update",
      default (tasks st) (latest (emitted "tasks:update") (log st tr)));
     ("visits:update",
      default (visits st) (latest (emitted "visits:update") (log st tr)));
     ("helpers:update",
      default (helpers st) (latest (emitted "helpers:update") (log st tr)))].
Proof.
  unfold on_connection.
  rewrite <-(latest_run (emitted "tasks:update") tasks) by by_handler.
  rewrite <-(latest_run (emitted "visits:update") visits) by by_handler.
  by rewrite <-(latest_run (emitted "helpers:update") helpers) by by_handler.
Qed.

(** * The service worker *)

(** ** Which requests the worker takes *)

Lemma startsWith_spec (s n : string) :
  startsWith s n = true ↔ ∃ b, s = String.append n b.
Proof.
  revert s. induction n as [|a n IH]; intros s; cbn.
  - split; [by exists s|done].
  - destruct s as [|c s]; [split; [done|by intros [b [=]]]|].
    rewrite andb_true_iff, Ascii.eqb_eq, IH. split.
    + intros [-> [b ->]]. by exists b.
    + intros [b [= -> ->]]. split; [done|by exists b].
Qed.

Lemma includes_spec (s n : string) :
  includes s n = true ↔ ∃ a b, s = String.append a (String.append n b).
Proof.
  induction s as [|c s IH]; cbn; rewrite orb_true_iff, startsWith_spec.
  - split.
    + intros [[b Hb]|]; [|done]. by exists "", b.
    + intros (a & b & Hab). left. destruct a; [by exists b|done].
  - rewrite IH. split.
    + intros [[b Hb]|(a & b & ->)]; [by exists "", b|].
      by exists (String c a), b.
    + intros ([|c' a] & b & Hab); [left; by exists b|].
      right. injection Hab as -> ->. by exists a, b.
Qed.

(** X23.  The worker stays out of the way of the server.  A request that
    is not a GET, or whose URL has [/api/] or [/socket.io/] anywhere in
    it, is not answered by the worker and leaves the caches alone,
    whatever the network does; every other GET is answered by it. *)
Theorem worker_skips_api (cs : storage) (q : fetch_request)
    (net : option asset) :
  (method q ≠ "GET" → on_fetch cs q net = (NotHandled, cs))
  ∧ (∀ a b, url q = String.append a (String.append "/api/" b)
            ∨ url q = String.append a (String.append "/socket.io/" b) →
       on_fetch cs q net = (NotHandled, cs))
  ∧ (method q = "GET" →
     (∀ a b, url q ≠ String.append a (String.append "/api/" b)) →
     (∀ a b, url q ≠ String.append a (String.append "/socket.io/" b)) →
     (on_fetch cs q net).1 ≠ NotHandled).
Proof.
  unfold on_fetch. split; [|split].
  - intros Hm. apply String.eqb_neq in Hm. by rewrite Hm.
  - intros a b Hu. destruct (negb (String.eqb (method q) "GET")); [done|].
    assert (includes (url q) "/api/" || includes (url q) "/socket.io/"
            = true) as ->; [|done].
    apply orb_true_iff. destruct Hu as [Hu|Hu]; [left|right];
      apply includes_spec; by exists a, b.
  - intros Hm Hapi Hio. apply String.eqb_eq in Hm. rewrite Hm. cbn [negb].
    assert (includes (url q) "/api/" || includes (url q) "/socket.io/"
            = false) as ->.
    { apply orb_false_intro; apply not_true_is_false;
        intros (a & b & Hab)%includes_spec; [by eapply Hapi|by eapply Hio]. }
    by destruct net.
Qed.

Lemma worker_skips_api_witness :
  on_fetch old_caches (Fetch "POST" "https://rota.example/") (Some shell)
  = (NotHandled, old_caches)
  ∧ on_fetch old_caches api_call (Some shell) = (NotHandled, old_caches)
  ∧ (on_fetch old_caches page None).1 ≠ NotHandled.
Proof.
  split; [|split].
  - apply (proj1 (worker_skips_api old_caches
                    (Fetch "POST" "https://rota.example/") (Some shell))).
    discriminate.
  - apply (proj1 (proj2 (worker_skips_api old_caches api_call (Some shell)))
             "https://rota.example" "tasks").
    left. reflexivity.
  - apply (proj2 (proj2 (worker_skips_api old_caches page None)));
      [reflexivity|..];
      intros a b Hab;
      assert (includes (url page) "/api/" || includes (url page) "/socket.io/"
              = true) as Hin
        by (apply orb_true_iff; (left + right); apply includes_spec;
            by exists a, b);
      vm_compute in Hin; discriminate.
Defined.

(** ** Activation *)

Lemma caches_delete_all (ks : list string) (cs : storage) :
  foldr caches_delete cs ks = filter (λ c, c.1 ∉ ks) cs.
Proof.
  induction ks as [|k ks IH]; cbn [foldr].
  - induction cs as [|c cs IHcs]; [done|].
    rewrite filter_cons_True by apply not_elem_of_nil. by f_equal.
  - rewrite IH. unfold caches_delete. rewrite list_filter_filter.
    apply list_filter_iff. intros c. rewrite not_elem_of_cons. tauto.
Qed.

Lemma filter_not_stale (ks : list string) (cs : storage) :
  (∀ c, c ∈ cs → c.1 ∈ ks) →
  filter (λ c, c.1 ∉ filter (λ k, k ≠ CACHE) ks) cs
  = filter (λ c, c.1 = CACHE) cs.
Proof.
  intros Hin. induction cs as [|c cs IH]; [done|].
  rewrite !filter_cons. rewrite IH by (intros; apply Hin; by right).
  assert (c.1 ∈ ks) as Hc by (apply Hin; by left).
  destruct (decide (c.1 = CACHE)) as [Heq|Hne].
  - rewrite decide_True; [done|].
    rewrite list_elem_of_filter. intros [Hk _]. by apply Hk.
  - rewrite decide_False; [done|].
    intros Hnot. apply Hnot. by apply list_elem_of_filter.
Qed.

Lemma on_activate_filter (cs : storage) :
  on_activate cs = filter (λ c, c.1 = CACHE) cs.
Proof.
  unfold on_activate. rewrite caches_delete_all.
  apply filter_not_stale. intros c Hc. unfold caches_keys.
  by apply list_elem_of_fmap_2.
Qed.

(** X24.  Activation throws away every cache but [helprota-v1]: what is
    left of the cache storage are its caches of that name, as they
    were. *)
Theorem activate_keeps_current (cs : storage) :
  on_activate cs = filter (λ c, c.1 = CACHE) cs
  ∧ Forall (λ k, k = CACHE) (caches_keys (on_activate cs)).
Proof.
  pose proof (on_activate_filter cs) as Heq.
  split; [done|]. rewrite Heq. unfold caches_keys.
  apply Forall_fmap, Forall_forall. intros c Hc.
  by apply list_elem_of_filter in Hc as [Hc _].
Qed.

(** ** Network first, cache second *)

Lemma caches_open_current (cs : storage) :
  Forall (λ k, k = CACHE) (caches_keys cs) →
  ∃ c cs', caches_open CACHE cs = c :: cs' ∧ c.1 = CACHE.
Proof.
  intros Hall. unfold caches_open.
  destruct cs as [|c cs]; [by exists (CACHE, ∅), []|].
  apply Forall_cons_1 in Hall as [Hc _].
  case_decide; [by exists c, cs|].
  by exists c, (cs ++ [(CACHE, ∅)])%list.
Qed.

(** A concrete case of why the caches of older versions matter: before
    activation has removed them, an older cache answers first. *)
Example stale_answer :
  (on_fetch (on_fetch old_caches page (Some shell)).2 page None).1
  = RespondWith (Some (Asset 200 "old")).
Proof. vm_compute. reflexivity. Qed.

(** X25.  Network first, cache second.  A GET the worker takes is
    answered with the response of the network when there is one,
    whatever the caches hold.  Once only caches named [helprota-v1] are
    left, as after activation, that response (unless its status is 206)
    is what the worker answers to the same URL when the network fails
    afterwards, and the failed request leaves the caches as they
    were. *)
Theorem offline_after_online (cs : storage) (q : fetch_request) (a : asset) :
  method q = "GET" →
  includes (url q) "/api/" = false →
  includes (url q) "/socket.io/" = false →
  (on_fetch cs q (Some a)).1 = RespondWith (Some a)
  ∧ (Forall (λ k, k = CACHE) (caches_keys cs) → code a ≠ 206 →
     on_fetch (on_fetch cs q (Some a)).2 q None
     = (RespondWith (Some a), (on_fetch cs q (Some a)).2)).
Proof.
  intros Hm Hapi Hio. unfold on_fetch.
  apply String.eqb_eq in Hm. rewrite Hm, Hapi, Hio. cbn [negb orb fst snd].
  split; [done|]. intros Hall Hcode. do 2 f_equal.
  destruct (caches_open_current cs Hall) as (c & cs' & -> & Hc).
  unfold cache_put. apply Nat.eqb_neq in Hcode. rewrite Hcode.
  unfold caches_match. cbn [fmap list_fmap omap list_omap].
  rewrite decide_True by done. cbn [snd]. by rewrite lookup_insert_eq.
Qed.

Lemma offline_after_online_witness :
  (on_fetch (on_activate old_caches) page (Some shell)).1
  = RespondWith (Some shell)
  ∧ on_fetch (on_fetch (on_activate old_caches) page (Some shell)).2 page None
    = (RespondWith (Some shell),
       (on_fetch (on_activate old_caches) page (Some shell)).2).
Proof.
  destruct (offline_after_online (on_activate old_caches) page shell
              eq_refl eq_refl eq_refl) as [Hon Hoff].
  split; [exact Hon|]. apply Hoff.
  - vm_compute. by repeat constructor.
  - discriminate.
Defined.

(** ** Installation *)

Lemma append_inj (s a b : string) :
  String.append s a = String.append s b → a = b.
Proof. induction s as [|c s IH]; cbn; [done|]. intros [= H]. by apply IH. Qed.

Lemma ok_status_storable (a : asset) : ok_status a = true → (code a =? 206)%nat = false.
Proof.
  unfold ok_status. intros H. apply andb_true_iff in H as [_ H].
  by apply negb_true_iff in H.
Qed.

(** The first cache of the current name answers [caches.match] once
    only caches of that name are left. *)
Lemma caches_match_current (u : string) (a : asset) (cs : storage) :
  (∃ c, c ∈ cs ∧ c.1 = CACHE) →
  (∀ c, c ∈ cs → c.1 = CACHE → c.2 !! u = Some a) →
  caches_match u (filter (λ c, c.1 = CACHE) cs) = Some a.
Proof.
  intros (c0 & Hin & Hname) Hall. unfold caches_match.
  induction cs as [|c cs IH]; [by apply elem_of_nil in Hin|].
  rewrite filter_cons. destruct (decide (c.1 = CACHE)) as [Hc|Hc].
  - cbn. rewrite (Hall c) by (done || by left). done.
  - apply IH.
    + apply elem_of_cons in Hin as [->|Hin]; done.
    + intros c' Hc'. apply Hall. by right.
Qed.

Lemma cache_put_inv (name u : string) (a : asset) (cs : storage)
    (c : string * cache) :
  (code a =? 206)%nat = false → c ∈ cache_put name u a cs →
  ∃ c0, c0 ∈ cs ∧ c.1 = c0.1 ∧ (c0.1 = name → c.2 = <[ u := a ]> c0.2).
Proof.
  intros Hcode. unfold cache_put. rewrite Hcode.
  intros (c0 & -> & Hc0)%list_elem_of_fmap. exists c0. split; [done|].
  by case_decide.
Qed.

Lemma cache_put_keeps_name (name u : string) (a : asset) (cs : storage) :
  (∃ c, c ∈ cs ∧ c.1 = name) → ∃ c, c ∈ cache_put name u a cs ∧ c.1 = name.
Proof.
  intros (c & Hc & Hn). unfold cache_put. case_match; [by exists c|].
  exists (c.1, <[ u := a ]> c.2). split; [|done].
  apply list_elem_of_fmap. exists c. split; [|done]. by rewrite decide_True.
Qed.

(** X26.  Installation.  When the network gives both assets with an ok
    status the installation succeeds, and after activation the worker
    answers each of the two URLs it takes with the response of the
    installation when the network fails.  When an asset does not arrive,
    or arrives with another status, the installation fails and has
    stored nothing: the caches are as before but for an empty
    [helprota-v1] when there was none. *)
Theorem install_then_offline (base : string) (net : string → option asset)
    (cs : storage) :
  ((∀ u, u ∈ ASSETS →
      ∃ r, net (String.append base u) = Some r ∧ ok_status r = true) →
   (on_install base net cs).2 = true
   ∧ ∀ u, u ∈ ASSETS →
       includes (String.append base u) "/api/" = false →
       includes (String.append base u) "/socket.io/" = false →
       (on_fetch (on_activate (on_install base net cs).1)
                 (Fetch "GET" (String.append base u)) None).1
       = RespondWith (net (String.append base u)))
  ∧ ((∃ u, u ∈ ASSETS
           ∧ ∀ r, net (String.append base u) = Some r → ok_status r = false) →
     on_install base net cs = (caches_open CACHE cs, false)).
Proof.
  unfold on_install, cache_addAll, ASSETS. cbn [fmap list_fmap mapM].
  split.
  - intros Hnet.
    destruct (Hnet "/") as (r1 & Hr1 & Hok1); [by left|].
    destruct (Hnet "/manifest.json") as (r2 & Hr2 & Hok2);
      [by right; left|].
    rewrite Hr1, Hr2. cbn [mbind option_bind mret option_ret forallb].
    rewrite Hok1, Hok2. cbn [andb snd fst zip zip_with foldl].
    split; [done|]. intros u Hu Hapi Hio.
    unfold on_fetch. cbn [method url]. rewrite Hapi, Hio. cbn [negb orb fst].
    cbn. f_equal.
    rewrite on_activate_filter.
    assert (∃ r, net (String.append base u) = Some r
                 ∧ (u = "/" ∧ r = r1 ∨ u = "/manifest.json" ∧ r = r2))
      as (r & -> & Hur).
    { apply elem_of_cons in Hu as [->|Hu]; [exists r1; by auto|].
      apply list_elem_of_singleton in Hu as ->. exists r2. by auto. }
    pose proof (ok_status_storable _ Hok1) as Hs1.
    pose proof (ok_status_storable _ Hok2) as Hs2.
    apply caches_match_current.
    + do 2 apply cache_put_keeps_name.
      unfold caches_open. case_decide as Hin.
      * unfold caches_keys in Hin.
        apply list_elem_of_fmap in Hin as (c & -> & Hc). by exists c.
      * exists (CACHE, ∅). split; [|done]. apply elem_of_app. right.
        by left.
    + intros c Hc Hname.
      apply (cache_put_inv _ _ _ _ _ Hs2) in Hc as (c2 & Hc2 & Hn2 & Hput2).
      apply (cache_put_inv _ _ _ _ _ Hs1) in Hc2 as (c1 & Hc1 & Hn1 & Hput1).
      rewrite Hput2, Hput1 by congruence.
      destruct Hur as [[-> ->]|[-> ->]].
      * rewrite lookup_insert_ne; [by rewrite lookup_insert_eq|].
        by intros ?%append_inj.
      * by rewrite lookup_insert_eq.
  - intros (u & Hu & Hbad).
    apply elem_of_cons in Hu as [->|Hu].
    + destruct (net (String.append base "/")) as [r1|] eqn:Hr1; [|done].
      cbn [mbind option_bind].
      destruct (net (String.append base "/manifest.json")) as [r2|];
        [|done].
      cbn. by rewrite (Hbad r1).
    + apply list_elem_of_singleton in Hu as ->.
      destruct (net (String.append base "/")) as [r1|]; [|done].
      cbn [mbind option_bind].
      destruct (net (String.append base "/manifest.json")) as [r2|] eqn:Hr2;
        [|done].
      cbn. rewrite (Hbad r2) by done. by rewrite andb_false_r.
Qed.

Lemma install_then_offline_witness :
  ((on_install "https://rota.example" rota_net old_caches).2 = true
   ∧ (on_fetch
        (on_activate (on_install "https://rota.example" rota_net old_caches).1)
        page None).1
     = RespondWith (rota_net "https://rota.example/"))
  ∧ on_install "https://rota.example" (λ _, None) old_caches
    = (caches_open CACHE old_caches, false).
Proof.
  split.
  - destruct (proj1 (install_then_offline "https://rota.example" rota_net
                       old_caches)) as [Hok Hoff].
    + intros u [->|Hu]%elem_of_cons.
      * exists (Asset 200 "<!doctype html>"). by split.
      * apply list_elem_of_singleton in Hu as ->.
        exists (Asset 200 "{}"). by split.
    + split; [exact Hok|].
      apply (Hoff "/"); [by left|reflexivity..].
  - apply (proj2 (install_then_offline "https://rota.example" (λ _, None)
                    old_caches)).
    exists "/". split; [by left|]. intros r. discriminate.
Defined.
